(** * FileQueue: a FIFO queue that spills to files

    A shallow embedding of [FileQueue.py] (class [FileQueue]) and the
    properties of its specification.

    Modelling decisions, all read off the source:
    - an operation is a computation over a [world]: the queue object
      ([self]), the buffer directory on disk, and the clock read by
      [_time()];
    - a computation ends in [Return], in [Raise] (a Python exception, with
      the mutations made before it kept), or in [Blocked] (the thread is
      suspended in [Condition.wait]; [resume] is what it runs when it
      wakes);
    - [pickle] is taken to round-trip exactly, so a file holds the object
      that was dumped into it;
    - a reading of the clock is a rational number of seconds: the rounding
      of floating-point arithmetic is left out;
    - the body of each operation is its critical section: the mutex is
      held from the first to the last statement, so the lock itself is not
      part of the state. *)

From Stdlib Require Import ZArith QArith Qround Lia Lqa Ascii.
From stdpp Require Import base option list gmap strings pretty.

Close Scope Q_scope.
Open Scope Z_scope.

(** ** Python values and exceptions *)

(** The exceptions the code can raise. [Empty] is the queue's own; the
    others come from the interpreter ([None.append], [deque().popleft()],
    unpacking) and from the file system. *)
Inductive exn : Type :=
  | Empty
  | AttributeError
  | IndexError
  | TypeError
  | ValueError
  | IOError
  | OSError.

(** What a thread suspended in [self.__not_empty.wait(...)] remembers:
    nothing (line 107), or the deadline [end] (line 104). *)
Inductive waiter : Type :=
  | WaitForever
  | WaitUntil (end_ : Q).

Inductive outcome (R : Type) : Type :=
  | Return (r : R)
  | Raise (e : exn)
  | Blocked (k : waiter).
Arguments Return {R} r.
Arguments Raise {R} e.
Arguments Blocked {R} k.

(** [int(x)] on a number truncates towards zero. *)
Definition int (x : Q) : Z := Z.quot (Qnum x) (Z.pos (Qden x)).

(** [str(n)] on an integer is its decimal numeral. *)
Definition str (n : Z) : string := pretty n.

(** The name [__save_to_file] gives a chunk written when the clock reads
    [t] seconds (line 145). *)
Definition chunk_name (t : Q) : string := str (int (t * 1000)%Q).

(** A chunk is never named [info]: a decimal numeral does not start with
    the letter i. *)
Definition starts_with_i (s : string) : Prop :=
  match s with
  | String "i"%char _ => True
  | _ => False
  end.

Lemma pretty_N_go_not_i (x : N) (s : string) :
  ¬ starts_with_i s → ¬ starts_with_i (pretty_N_go x s).
Proof.
  revert s. induction (N.lt_wf_0 x) as [x _ IH]; intros s Hs.
  destruct (decide (x = 0%N)) as [->|Hx].
  - by rewrite pretty_N_go_0.
  - rewrite pretty_N_go_step by lia. apply IH.
    + apply N.div_lt; lia.
    + unfold pretty_N_char. repeat case_match; simpl; tauto.
Qed.

Lemma str_not_i (n : Z) : ¬ starts_with_i (str n).
Proof.
  unfold str, pretty, pretty_Z.
  assert (∀ p : positive, ¬ starts_with_i (pretty p)) as Hpos.
  { intros p. unfold pretty, pretty_positive, pretty, pretty_N.
    case_decide; [simpl; tauto|]. apply pretty_N_go_not_i. simpl; tauto. }
  destruct n as [|p|p]; [simpl; tauto|apply Hpos|simpl; tauto].
Qed.

Lemma chunk_name_not_info (t : Q) : chunk_name t ≠ "info"%string.
Proof.
  unfold chunk_name. intros Heq.
  apply (str_not_i (int (t * 1000)%Q)). by rewrite Heq.
Qed.

Section FileQueue.

Context {A : Type}.

(** The objects the queue's attributes and files hold: [None], a deque of
    items, or the index record [(size, files)]. *)
Inductive pyobj : Type :=
  | PyNone
  | PyDeque (q : list A)
  | PyIndex (sz : Z) (fl : list string).

(** Truth value of an object, as [if obj:] and [not obj] take it. *)
Definition truthy (o : pyobj) : bool :=
  match o with
  | PyNone => false
  | PyDeque q => negb (bool_decide (q = []))
  | PyIndex _ _ => true
  end.

(** Truth value of [self.__files]: a deque of names, or [None]. *)
Definition truthy_files (f : option (list string)) : bool :=
  match f with
  | Some (_ :: _) => true
  | _ => false
  end.

(** ** The queue object and its world *)

Record FileQueue : Type := mkFileQueue {
  buffer_size : Z;
  save_data : bool;
  size : Z;
  files : option (list string);
  queue_in : pyobj;
  queue_out : pyobj
}.

(** The buffer directory: [None] when it does not exist, otherwise the
    regular files in it, by name. *)
Record world : Type := mkWorld {
  self : FileQueue;
  disk : option (gmap string pyobj);
  clock : nat → Q;
  ticks : nat
}.

Definition with_size (n : Z) (q : FileQueue) : FileQueue :=
  mkFileQueue (buffer_size q) (save_data q) n (files q) (queue_in q) (queue_out q).
Definition with_files (f : option (list string)) (q : FileQueue) : FileQueue :=
  mkFileQueue (buffer_size q) (save_data q) (size q) f (queue_in q) (queue_out q).
Definition with_queue_in (o : pyobj) (q : FileQueue) : FileQueue :=
  mkFileQueue (buffer_size q) (save_data q) (size q) (files q) o (queue_out q).
Definition with_queue_out (o : pyobj) (q : FileQueue) : FileQueue :=
  mkFileQueue (buffer_size q) (save_data q) (size q) (files q) (queue_in q) o.

(** ** Computations *)

Definition M (R : Type) : Type := world → outcome R * world.

Definition ret {R} (r : R) : M R := λ w, (Return r, w).
Definition raise {R} (e : exn) : M R := λ w, (Raise e, w).
Definition wait {R} (k : waiter) : M R := λ w, (Blocked k, w).
Definition bind {R S} (m : M R) (f : R → M S) : M S := λ w,
  match m w with
  | (Return r, w') => f r w'
  | (Raise e, w') => (Raise e, w')
  | (Blocked k, w') => (Blocked k, w')
  end.

Notation "x <- m ;; f" := (bind m (λ x, f))
  (at level 100, m at next level, right associativity).
Notation "m ;;; f" := (bind m (λ _, f))
  (at level 100, right associativity).

Definition get_self : M FileQueue := λ w, (Return (self w), w).
Definition update (f : FileQueue → FileQueue) : M unit := λ w,
  (Return tt, mkWorld (f (self w)) (disk w) (clock w) (ticks w)).
Definition get_disk : M (option (gmap string pyobj)) := λ w, (Return (disk w), w).
Definition set_disk (d : option (gmap string pyobj)) : M unit := λ w,
  (Return tt, mkWorld (self w) d (clock w) (ticks w)).

(** [_time()]: the next reading of the clock. *)
Definition time : M Q := λ w,
  (Return (clock w (ticks w)), mkWorld (self w) (disk w) (clock w) (S (ticks w))).

(** ** The private helpers *)

(** [__save_to_file(queue, tail)], lines 143-151. *)
Definition save_to_file (queue : pyobj) (tail : bool) : M unit :=
  t <- time ;;
  let file_name := str (int (t * 1000)%Q) in
  q <- get_self ;;
  match files q with
  | None => raise AttributeError
  | Some fl =>
      update (with_files (Some (if tail then fl ++ [file_name] else file_name :: fl))) ;;;
      d <- get_disk ;;
      match d with
      | None => raise IOError
      | Some dir => set_disk (Some (<[file_name := queue]> dir))
      end
  end.

(** [__get_from_file(filename)], lines 153-159. *)
Definition get_from_file (filename : string) : M pyobj :=
  d <- get_disk ;;
  match d with
  | None => raise IOError
  | Some dir =>
      match dir !! filename with
      | None => raise IOError
      | Some obj => set_disk (Some (delete filename dir)) ;;; ret obj
      end
  end.

(** [self.__queue_in, self.__queue_out = self.__queue_out, self.__queue_in] *)
Definition swap : M unit :=
  update (λ q, with_queue_out (queue_in q) (with_queue_in (queue_out q) q)).

(** ** put, lines 58-75 *)

Definition put (item : A) : M unit :=
  q <- get_self ;;
  match queue_in q with
  | PyDeque l =>
      update (with_queue_in (PyDeque (l ++ [item]))) ;;;
      (if buffer_size q <=? Z.of_nat (length (l ++ [item])) then
         if negb (truthy_files (files q)) && negb (truthy (queue_out q)) then
           swap
         else
           save_to_file (PyDeque (l ++ [item])) true ;;;
           update (with_queue_in (PyDeque []))
       else ret tt) ;;;
      update (λ q, with_size (size q + 1) q)
  | _ => raise AttributeError
  end.

(** ** get, lines 77-114 *)

(** Lines 111-112: [self.__size -= 1; return self.__queue_out.popleft()]. *)
Definition take : M A :=
  update (λ q, with_size (size q - 1) q) ;;;
  q <- get_self ;;
  match queue_out q with
  | PyDeque (x :: l) => update (with_queue_out (PyDeque l)) ;;; ret x
  | PyDeque [] => raise IndexError
  | _ => raise AttributeError
  end.

(** The loops of lines 100-104 and 106-107, from their test: left when
    [queue_in] is non-empty; otherwise the thread waits, or raises [Empty]
    once the deadline has passed. *)
Definition wait_loop (k : waiter) : M unit :=
  q <- get_self ;;
  if negb (truthy (queue_in q)) then
    match k with
    | WaitForever => wait WaitForever
    | WaitUntil end_ =>
        t <- time ;;
        if Qle_bool (end_ - t)%Q 0%Q then raise Empty else wait (WaitUntil end_)
    end
  else ret tt.

Definition get (block : bool) (timeout : Q) : M A :=
  q <- get_self ;;
  (if negb (truthy (queue_out q)) then
     if truthy_files (files q) then
       match files q with
       | Some (f :: fl) =>
           update (with_files (Some fl)) ;;;
           obj <- get_from_file f ;;
           update (with_queue_out obj)
       | _ => ret tt
       end
     else if truthy (queue_in q) then
       swap
     else if block then
       (if negb (Qle_bool timeout 0%Q) then
          t <- time ;;
          wait_loop (WaitUntil (t + timeout)%Q)
        else
          wait_loop WaitForever) ;;;
       swap
     else
       raise Empty
   else ret tt) ;;;
  take.

(** What a thread blocked in [get] runs when [wait] returns (after a
    [notify], or when its timeout has elapsed): the loop test again, then
    line 108 and lines 111-112. *)
Definition resume (k : waiter) : M A :=
  wait_loop k ;;;
  swap ;;;
  take.

(** [get_nowait], lines 116-122. The default of [timeout] is [0]. *)
Definition get_nowait : M A := get false 0%Q.

(** ** Construction and close *)

(** [__init__], lines 30-56, on the buffer directory: the directory is
    created when absent, and [(size, files)] restored from the file [info]
    when there is one. Line 46 unpacks whatever [info] holds: [None] fails
    with [TypeError], a deque of any length but two with [ValueError]. A
    deque of exactly two items would be unpacked, and the constructor
    would return with the two items as [size] and chunk list; the record
    [FileQueue] has no place for such values, so this one case is outside
    the model (see [info_not_a_pair]): results about a directory that is
    not fresh assume it away. *)
Definition init (buffer_size : Z) (save_data : bool)
    (d : option (gmap string pyobj)) : outcome FileQueue * option (gmap string pyobj) :=
  let dir := match d with Some dir => dir | None => ∅ end in
  match dir !! "info"%string with
  | Some (PyIndex sz fl) =>
      (Return (mkFileQueue buffer_size save_data sz (Some fl) (PyDeque []) (PyDeque [])),
       Some dir)
  | Some PyNone => (Raise TypeError, Some dir)
  | Some (PyDeque _) => (Raise ValueError, Some dir)
  | None =>
      (Return (mkFileQueue buffer_size save_data 0 (Some []) (PyDeque []) (PyDeque [])),
       Some dir)
  end.

(** [FileQueue(buffer_dir, buffer_size, save_data)]: a new object on the
    directory, which the world follows from then on. Only [__init__]
    runs: the object the world followed before stays referenced, so its
    finalizer does not run. [rebind] below is the assignment that drops
    the old object. *)
Definition construct (buffer_size : Z) (save_data : bool) : M unit := λ w,
  match init buffer_size save_data (disk w) with
  | (Return q, d) => (Return tt, mkWorld q d (clock w) (ticks w))
  | (Raise e, d) => (Raise e, mkWorld (self w) d (clock w) (ticks w))
  | (Blocked k, d) => (Blocked k, mkWorld (self w) d (clock w) (ticks w))
  end.

(** The local [rmdir] of [close], lines 167-174, on a directory of regular
    files: [os.listdir] fails when the directory is absent. *)
Definition rmdir : M unit :=
  d <- get_disk ;;
  match d with
  | None => raise OSError
  | Some _ => set_disk None
  end.

(** [close], lines 161-190. *)
Definition close : M unit :=
  q <- get_self ;;
  (if save_data q && bool_decide (files q ≠ None) then
     (if truthy (queue_in q) then save_to_file (queue_in q) true else ret tt) ;;;
     (if truthy (queue_out q) then save_to_file (queue_out q) false else ret tt) ;;;
     q <- get_self ;;
     match files q with
     | Some (f :: fl) =>
         d <- get_disk ;;
         match d with
         | None => raise IOError
         | Some dir => set_disk (Some (<["info"%string := PyIndex (size q) (f :: fl)]> dir))
         end
     | _ => rmdir
     end
   else rmdir) ;;;
  update (with_queue_in PyNone) ;;;
  update (with_queue_out PyNone) ;;;
  update (with_files None).


(** ** Runs of one thread *)

(** A call made by the only thread that uses the queue: when it blocks,
    nothing else runs, and the thread goes on when [wait] returns (which a
    timed wait does by itself); [n] bounds the number of wake-ups. *)
Fixpoint call {R} (n : nat) (m : M R) (resume : waiter → M R) : M R := λ w,
  match m w with
  | (Blocked k, w') =>
      match n with
      | O => (Blocked k, w')
      | S n' => call n' (resume k) resume w'
      end
  | r => r
  end.

(** All three of outgoing, chunk list and incoming are empty. *)
Definition drained (w : world) : Prop :=
  queue_out (self w) = PyDeque [] ∧ files (self w) = Some [] ∧
  queue_in (self w) = PyDeque [].


(** A fresh directory: absent, or present and empty. *)
Definition fresh (d : option (gmap string pyobj)) : Prop :=
  d = None ∨ d = Some ∅.



(** ** Unfolding computations *)

Ltac run :=
  unfold put, get_nowait, get, resume, wait_loop, take, close, rmdir, swap,
    save_to_file, get_from_file, bind, ret, raise, wait, get_self, update,
    get_disk, set_disk, time, with_size, with_files, with_queue_in,
    with_queue_out; simpl.

(** ** put *)

(** C3. On a queue in use (incoming and outgoing are deques, the chunk
    list is a list, the buffer directory exists), [put item] returns and
    has one of three effects. The item is appended to incoming; while
    incoming stays below
    [buffer_size] nothing else changes. Once it has reached [buffer_size]:
    incoming and outgoing are swapped exactly when the chunk list and
    outgoing are both empty; otherwise incoming is written as a chunk whose
    name goes to the tail of the chunk list, and incoming restarts empty.
    In each case [size] grows by one. *)
Theorem put_effect (item : A) (w : world) (i o : list A) (fl : list string)
    (dir : gmap string pyobj) :
  queue_in (self w) = PyDeque i →
  queue_out (self w) = PyDeque o →
  files (self w) = Some fl →
  disk w = Some dir →
  let q := self w in
  let name := chunk_name (clock w (ticks w)) in
  put item w =
    (Return tt,
     if decide (Z.of_nat (length (i ++ [item])) < buffer_size q) then
       mkWorld
         (mkFileQueue (buffer_size q) (save_data q) (size q + 1) (Some fl)
            (PyDeque (i ++ [item])) (PyDeque o))
         (Some dir) (clock w) (ticks w)
     else if decide (fl = [] ∧ o = []) then
       mkWorld
         (mkFileQueue (buffer_size q) (save_data q) (size q + 1) (Some fl)
            (PyDeque o) (PyDeque (i ++ [item])))
         (Some dir) (clock w) (ticks w)
     else
       mkWorld
         (mkFileQueue (buffer_size q) (save_data q) (size q + 1)
            (Some (fl ++ [name])) (PyDeque []) (PyDeque o))
         (Some (<[name := PyDeque (i ++ [item])]> dir)) (clock w) (S (ticks w))).
Proof.
  destruct w as [[bs sd sz f qi qo] d clk n]; simpl.
  intros -> -> -> ->. run.
  destruct (decide (Z.of_nat (length (i ++ [item])) < bs)) as [Hlt|Hge].
  - apply Z.leb_gt in Hlt. rewrite Hlt. reflexivity.
  - apply Z.nlt_ge, Z.leb_le in Hge. rewrite Hge.
    destruct fl as [|f0 fl], o as [|x o]; simpl; reflexivity.
Qed.


(** ** get: the steps that do not return *)

(** A step that raises [Empty] or suspends the thread. *)
Definition idle {R} (r : outcome R) : Prop :=
  r = Raise Empty ∨ ∃ k, r = Blocked k.

(** [get] raises [Empty] or blocks only before it has changed anything,
    and only when incoming is empty (or [None]). *)
Lemma get_idle (block : bool) (timeout : Q) (w w' : world) (r : outcome A) :
  get block timeout w = (r, w') →
  idle r →
  self w' = self w ∧ disk w' = disk w ∧ truthy (queue_in (self w)) = false.
Proof.
  destruct w as [[bs sd sz f qi qo] d clk n]. run.
  intros Hget [-> | [k ->]];
    repeat (case_match; simplify_eq/=); auto.
Qed.

(** A woken thread that finds incoming empty waits again or gives up with
    [Empty]; it changes nothing. *)
Lemma resume_idle (k : waiter) (w : world) :
  truthy (queue_in (self w)) = false →
  ∃ (r : outcome A) w',
    resume k w = (r, w') ∧ idle r ∧ self w' = self w ∧ disk w' = disk w.
Proof.
  destruct w as [[bs sd sz f qi qo] d clk n]; simpl. intros Hqi. run.
  rewrite Hqi; simpl. destruct k as [|e]; simpl.
  - eexists _, _; split; [reflexivity|]. unfold idle; eauto.
  - destruct (Qle_bool _ _); eexists _, _; (split; [reflexivity|]);
      unfold idle; eauto.
Qed.

Lemma call_resume_idle (n : nat) (k : waiter) (w w' : world) (r : outcome A) :
  truthy (queue_in (self w)) = false →
  call n (resume k) resume w = (r, w') →
  idle r ∧ self w' = self w ∧ disk w' = disk w.
Proof.
  revert k w. induction n as [|n IH]; intros k w Hqi;
    destruct (resume_idle k w Hqi) as (r0 & w0 & Hres & Hidle & Hself & Hdisk);
    simpl; rewrite Hres.
  - destruct Hidle as [-> | [k' ->]]; intros [= <- <-]; unfold idle; eauto.
  - destruct Hidle as [-> | [k' ->]].
    + intros [= <- <-]; unfold idle; eauto.
    + intros Hcall. apply IH in Hcall as (? & ? & ?); [|by rewrite Hself].
      split; [done|]. split; congruence.
Qed.

(** A call of [get] by the only thread either ends as its first step
    does, or blocks first and then never gets an item. *)
Lemma call_get (n : nat) (block : bool) (timeout : Q) (w w' : world)
    (r : outcome A) :
  call n (get block timeout) resume w = (r, w') →
  get block timeout w = (r, w') ∨
  (idle r ∧ self w' = self w ∧ disk w' = disk w).
Proof.
  destruct n as [|n]; simpl.
  - destruct (get block timeout w) as [[x|e|k] w0]; auto.
  - destruct (get block timeout w) as [[x|e|k] w0] eqn:Hget; auto.
    intros Hcall.
    destruct (get_idle _ _ _ _ _ Hget) as (Hself & Hdisk & Hqi);
      [unfold idle; eauto|].
    apply call_resume_idle in Hcall as (? & ? & ?); [|by rewrite Hself].
    right. split; [done|]. split; congruence.
Qed.

Lemma call_get_idle (n : nat) (block : bool) (timeout : Q) (w w' : world)
    (r : outcome A) :
  call n (get block timeout) resume w = (r, w') →
  idle r →
  self w' = self w ∧ disk w' = disk w.
Proof.
  intros Hcall Hidle. apply call_get in Hcall as [Hget | (_ & ? & ?)]; [|done].
  by apply get_idle in Hget as (? & ? & _).
Qed.

(** C9. A call of [get] that ends in [Empty], in non-blocking mode or when
    its timeout has run out after any number of waits, leaves the queue as
    it found it: [size], incoming, outgoing and the chunk list (and the
    files on disk) are unchanged. *)
Theorem get_Empty_keeps_state (n : nat) (block : bool) (timeout : Q)
    (w w' : world) :
  call n (get block timeout) resume w = (Raise Empty, w') →
  self w' = self w ∧ disk w' = disk w.
Proof.
  intros Hcall. apply (call_get_idle n block timeout w w' (Raise Empty) Hcall).
  by left.
Qed.

(** C7. [get_nowait] is [get(block=False)] on every state, and on a queue
    whose outgoing, chunk list and incoming are all empty [get(block=False)]
    raises [Empty] at once: no wait, no reading of the clock, no change. *)
Theorem get_nowait_Empty (w : world) (timeout : Q) :
  get_nowait w = get false 0%Q w ∧
  (drained w →
   get false timeout w = (Raise Empty, w) ∧ get_nowait w = (Raise Empty, w)).
Proof.
  split; [reflexivity|].
  destruct w as [[bs sd sz f qi qo] d clk n]; unfold drained; simpl.
  intros (-> & -> & ->). split; reflexivity.
Qed.


(** ** After close *)

(** C8, as the code has it. When [close] has returned, incoming, outgoing
    and the chunk list are [None]; [put] fails at once with
    [AttributeError]; [get(block=False)] and [get_nowait] fail at once with
    [Empty], all leaving the object as it is. A blocking [get] does not
    fail fast: without a timeout it waits on the condition, with a timeout
    it reads the clock for the deadline and again for the time left, waits
    unless the deadline has passed already, and gives up with [Empty] only
    then. *)
Theorem closed_queue_operations (w w' : world) :
  close w = (Return tt, w') →
  queue_in (self w') = PyNone ∧ queue_out (self w') = PyNone ∧
  files (self w') = None ∧
  (∀ item, put item w' = (Raise AttributeError, w')) ∧
  (∀ timeout, get false timeout w' = (Raise Empty, w')) ∧
  get_nowait w' = (Raise Empty, w') ∧
  (∀ timeout, Qle_bool timeout 0%Q = true →
     get true timeout w' = (Blocked WaitForever, w')) ∧
  (∀ timeout, Qle_bool timeout 0%Q = false →
     let end_ := (clock w' (ticks w') + timeout)%Q in
     let later := mkWorld (self w') (disk w') (clock w') (S (S (ticks w'))) in
     get true timeout w' =
       if Qle_bool (end_ - clock w' (S (ticks w')))%Q 0%Q
       then (Raise Empty, later)
       else (Blocked (WaitUntil end_), later)).
Proof.
  intros Hclose.
  assert (queue_in (self w') = PyNone ∧ queue_out (self w') = PyNone ∧
          files (self w') = None) as (Hqi & Hqo & Hf).
  { revert Hclose. destruct w as [[bs sd sz f qi qo] d clk n]. run.
    intros Hclose. repeat (case_match; simplify_eq/=); auto. }
  destruct w' as [[bs sd sz f qi qo] d clk n]; simpl in *; subst.
  split; [reflexivity|]. split; [reflexivity|]. split; [reflexivity|].
  split; [intros item; reflexivity|].
  split; [intros timeout; reflexivity|].
  split; [reflexivity|].
  split; intros timeout Ht.
  - run. rewrite Ht. reflexivity.
  - run. rewrite Ht. simpl. destruct (Qle_bool (_ - _) _); reflexivity.
Qed.

(** ** Incoming stays below the capacity *)







(** ** Scripts *)

(** The calls a client makes, and a script of them run on one thread, each
    call in its own [try], so that the script goes on after an exception
    and records how every call ended. [Construct] is [construct]: the
    objects constructed earlier stay referenced, and no finalizer runs
    during a script. *)
Inductive op : Type :=
  | Construct (buffer_size : Z) (save_data : bool)
  | Put (item : A)
  | Get (block : bool) (timeout : Q)
  | GetNowait
  | Close.

Inductive answer : Type :=
  | Done
  | Item (x : A).

Definition perform (o : op) : M answer :=
  match o with
  | Construct bs sd => construct bs sd ;;; ret Done
  | Put item => put item ;;; ret Done
  | Get block timeout => x <- get block timeout ;; ret (Item x)
  | GetNowait => x <- get_nowait ;; ret (Item x)
  | Close => close ;;; ret Done
  end.

Fixpoint script (ops : list op) (w : world) : list (outcome answer) * world :=
  match ops with
  | [] => ([], w)
  | o :: ops =>
      let '(r, w1) := perform o w in
      let '(rs, w2) := script ops w1 in
      (r :: rs, w2)
  end.

(** Before the first construction: no buffer directory, no queue object
    (the variable holds a closed one), the clock at its first reading. *)
Definition nothing (clk : nat → Q) : world :=
  mkWorld (mkFileQueue 0 false 0 None PyNone PyNone) None clk 0.

(** ** What the queue holds *)

(** The buffer stored in the chunk file [name], when there is one. *)
Definition chunk (d : option (gmap string pyobj)) (name : string) : option (list A) :=
  match d with
  | Some dir =>
      match dir !! name with
      | Some (PyDeque l) => Some l
      | _ => None
      end
  | None => None
  end.

(** The buffers stored in the chunks of a chunk list, in its order; [None]
    when one of them has no buffer on disk. *)
Fixpoint chunks (d : option (gmap string pyobj)) (fl : list string) : option (list (list A)) :=
  match fl with
  | [] => Some []
  | name :: fl =>
      match chunk d name, chunks d fl with
      | Some l, Some ls => Some (l :: ls)
      | _, _ => None
      end
  end.

(** The items of the queue in the order [get] serves them: outgoing, then
    the chunks from the head of the chunk list, then incoming. *)
Definition contents (w : world) : option (list A) :=
  match queue_out (self w), files (self w), queue_in (self w) with
  | PyDeque o, Some fl, PyDeque i =>
      match chunks (disk w) fl with
      | Some ls => Some (o ++ concat ls ++ i)
      | None => None
      end
  | _, _, _ => None
  end.

(** [len(incoming) + len(outgoing)] plus the lengths of the buffers stored
    in the chunks of the chunk list. *)
Definition accounted (w : world) : option Z :=
  match queue_out (self w), files (self w), queue_in (self w) with
  | PyDeque o, Some fl, PyDeque i =>
      match chunks (disk w) fl with
      | Some ls =>
          Some (Z.of_nat (length i) + Z.of_nat (length o) +
                Z.of_nat (sum_list (length <$> ls)))
      | None => None
      end
  | _, _, _ => None
  end.

(** ** The queue while chunk names are fresh

    What follows is the behaviour the defect of [__save_to_file] leaves
    intact: as long as every chunk gets a name that the chunk list does
    not hold, the queue is a FIFO queue and [size] counts its items. *)

Lemma chunks_insert_fresh (dir : gmap string pyobj) (name : string)
    (obj : pyobj) (fl : list string) :
  name ∉ fl →
  chunks (Some (<[name := obj]> dir)) fl = chunks (Some dir) fl.
Proof.
  induction fl as [|f fl IH]; [done|]. intros Hnotin.
  apply not_elem_of_cons in Hnotin as [Hne Hnotin]. simpl.
  rewrite lookup_insert_ne by done. by rewrite <- IH.
Qed.

Lemma chunks_delete_fresh (dir : gmap string pyobj) (name : string)
    (fl : list string) :
  name ∉ fl →
  chunks (Some (delete name dir)) fl = chunks (Some dir) fl.
Proof.
  induction fl as [|f fl IH]; [done|]. intros Hnotin.
  apply not_elem_of_cons in Hnotin as [Hne Hnotin]. simpl.
  rewrite lookup_delete_ne by done. by rewrite <- IH.
Qed.

Lemma chunks_snoc (d : option (gmap string pyobj)) (fl : list string)
    (name : string) (ls : list (list A)) (l : list A) :
  chunks d fl = Some ls → chunk d name = Some l →
  chunks d (fl ++ [name]) = Some (ls ++ [l]).
Proof.
  revert ls. induction fl as [|f fl IH]; intros ls; simpl.
  - intros [= <-] ->. reflexivity.
  - destruct (chunk d f) as [l0|]; [|done].
    destruct (chunks d fl) as [ls0|]; [|done].
    intros [= <-] Hname. by rewrite (IH ls0).
Qed.

(** A sound queue holding [items]: the containers are deques, the
    directory exists, the chunk list has no duplicates and no [info], each
    of its chunks is on disk and not empty, and [size] is the number of
    items. *)
Definition sound (w : world) (items : list A) : Prop :=
  ∃ i o fl ls,
    queue_in (self w) = PyDeque i ∧ queue_out (self w) = PyDeque o ∧
    files (self w) = Some fl ∧ is_Some (disk w) ∧ NoDup fl ∧
    ("info"%string ∉ fl) ∧
    chunks (disk w) fl = Some ls ∧ Forall (λ l, l ≠ []) ls ∧
    items = o ++ concat ls ++ i ∧
    size (self w) = Z.of_nat (length items).

(** The next chunk name is not in the chunk list. *)
Definition fresh_name (w : world) : Prop :=
  ∀ fl, files (self w) = Some fl → chunk_name (clock w (ticks w)) ∉ fl.

Lemma sound_contents w items : sound w items → contents w = Some items.
Proof.
  intros (i & o & fl & ls & Hi & Ho & Hf & _ & _ & _ & Hc & _ & -> & _).
  unfold contents. by rewrite Hi, Ho, Hf, Hc.
Qed.

Lemma sum_lengths (ls : list (list A)) :
  sum_list (length <$> ls) = length (concat ls).
Proof.
  induction ls as [|l ls IH]; [done|]. simpl. rewrite length_app, <- IH. reflexivity.
Qed.

Lemma sound_accounted w items : sound w items → accounted w = Some (size (self w)).
Proof.
  intros (i & o & fl & ls & Hi & Ho & Hf & _ & _ & _ & Hc & _ & -> & Hsz).
  unfold accounted. rewrite Hi, Ho, Hf, Hc, Hsz. f_equal.
  rewrite sum_lengths, !length_app. lia.
Qed.

Ltac lists := simpl; rewrite ?concat_app; simpl; rewrite ?app_nil_r, <- ?app_assoc;
  try reflexivity.
Ltac lengths := simpl in *; rewrite ?concat_app, ?length_app in *; simpl in *;
  rewrite ?length_app in *; simpl in *; lia.

Lemma NoDup_snoc_fresh (fl : list string) (name : string) :
  NoDup fl → name ∉ fl → NoDup (fl ++ [name]).
Proof.
  intros Hnd Hfresh. apply NoDup_app. split; [done|].
  split; [|apply NoDup_singleton].
  intros x Hx Hx'. apply list_elem_of_singleton in Hx'. by subst.
Qed.

(** On a sound queue [put] returns, and the item goes to the end. *)
Lemma put_sound (item : A) (w : world) (items : list A) :
  sound w items → fresh_name w →
  ∃ w', put item w = (Return tt, w') ∧ sound w' (items ++ [item]).
Proof.
  destruct w as [[bs sd sz f qi qo] d clk n]. unfold fresh_name; simpl.
  intros (i & o & fl & ls & Hi & Ho & Hf & [dir Hd] & Hnd & Hinfo & Hc & Hne & -> & Hsz)
    Hfresh; simpl in *; subst.
  specialize (Hfresh fl eq_refl). run.
  assert (i ++ [item] ≠ []) as Hitem by (by destruct i).
  destruct (bs <=? Z.of_nat (length (i ++ [item]))) eqn:Hfull.
  - destruct fl as [|f0 fl], o as [|y o]; simpl;
      (eexists; split; [reflexivity|]).
    + (* swap *)
      injection Hc as <-.
      exists [], (i ++ [item]), [], []; simpl.
      split_and!; [done|done|done|eauto|constructor|done|done|done|lists|lengths].
    + (* spill behind a non-empty outgoing *)
      injection Hc as <-.
      exists [], (y :: o), [chunk_name (clk n)], [i ++ [item]]; simpl.
      rewrite lookup_insert_eq.
      split_and!; [done|done|done|eauto|apply NoDup_singleton|
                  |done|by repeat constructor|lists|lengths].
      apply not_elem_of_cons. split; [|apply not_elem_of_nil].
      intros Heq. by apply (chunk_name_not_info (clk n)).
    + exists [], [], ((f0 :: fl) ++ [chunk_name (clk n)]), (ls ++ [i ++ [item]]).
      split_and!; [done|done|done|eauto|by apply NoDup_snoc_fresh| | |
                  |lists|lengths].
      * apply not_elem_of_app. split; [done|].
        apply not_elem_of_cons. split; [|apply not_elem_of_nil].
        intros Heq. by apply (chunk_name_not_info (clk n)).
      * apply (chunks_snoc _ (f0 :: fl)).
        -- etrans; [|exact Hc].
           by apply (chunks_insert_fresh dir (chunk_name (clk n))
                       (PyDeque (i ++ [item])) (f0 :: fl)).
        -- exact (f_equal (λ o, match o with Some (PyDeque l) => Some l | _ => None end)
                    (lookup_insert_eq dir (chunk_name (clk n)) (PyDeque (i ++ [item])))).
      * apply Forall_app. split; [done|]. by repeat constructor.
    + exists [], (y :: o), ((f0 :: fl) ++ [chunk_name (clk n)]), (ls ++ [i ++ [item]]).
      split_and!; [done|done|done|eauto|by apply NoDup_snoc_fresh| | |
                  |lists|lengths].
      * apply not_elem_of_app. split; [done|].
        apply not_elem_of_cons. split; [|apply not_elem_of_nil].
        intros Heq. by apply (chunk_name_not_info (clk n)).
      * apply (chunks_snoc _ (f0 :: fl)).
        -- etrans; [|exact Hc].
           by apply (chunks_insert_fresh dir (chunk_name (clk n))
                       (PyDeque (i ++ [item])) (f0 :: fl)).
        -- exact (f_equal (λ o, match o with Some (PyDeque l) => Some l | _ => None end)
                    (lookup_insert_eq dir (chunk_name (clk n)) (PyDeque (i ++ [item])))).
      * apply Forall_app. split; [done|]. by repeat constructor.
  - eexists; split; [reflexivity|].
    exists (i ++ [item]), o, fl, ls; simpl.
    split_and!; [done|done|done|eauto|done|done|done|done|lists|lengths].
Qed.

Lemma chunks_cons_inv (dir : gmap string pyobj) (f : string)
    (fl : list string) (ls : list (list A)) :
  chunks (Some dir) (f :: fl) = Some ls →
  ∃ l ls', ls = l :: ls' ∧ dir !! f = Some (PyDeque l) ∧
           chunks (Some dir) fl = Some ls'.
Proof.
  simpl. destruct (dir !! f) as [[|l|]|]; try done.
  destruct (chunks (Some dir) fl) as [ls'|]; [|done].
  intros [= <-]. by exists l, ls'.
Qed.

(** On a sound queue that holds an item, [get] returns the first one, in
    every mode, without waiting. *)
Lemma get_sound (block : bool) (timeout : Q) (w : world) (x : A)
    (items : list A) :
  sound w (x :: items) →
  ∃ w', get block timeout w = (Return x, w') ∧ sound w' items.
Proof.
  destruct w as [[bs sd sz f qi qo] d clk n].
  intros (i & o & fl & ls & Hi & Ho & Hf & [dir Hd] & Hnd & Hinfo & Hc & Hne & Hitems & Hsz);
    simpl in *; subst.
  destruct o as [|y o].
  - destruct fl as [|f0 fl].
    + (* nothing spilled: incoming becomes outgoing *)
      injection Hc as <-. simpl in Hitems. subst i. run.
      eexists; split; [reflexivity|].
      exists [], items, [], []; simpl.
      split_and!; [done|done|done|eauto|constructor|done|done|done|lists|lengths].
    + (* the head chunk is loaded and its file removed *)
      apply chunks_cons_inv in Hc as (l & ls' & -> & Hl & Hc).
      apply Forall_cons in Hne as [Hl0 Hne].
      destruct l as [|x0 l]; [done|]. simpl in Hitems.
      injection Hitems as <- ->.
      apply NoDup_cons in Hnd as [Hf0 Hnd].
      run. rewrite Hl. simpl.
      eexists; split; [reflexivity|].
      exists i, l, fl, ls'; simpl.
      apply not_elem_of_cons in Hinfo as [_ Hinfo].
      split_and!; [done|done|done|eauto|done|done| |done|lists|lengths].
      etrans; [|exact Hc]. by apply chunks_delete_fresh.
  - simpl in Hitems. injection Hitems as <- ->. run.
    eexists; split; [reflexivity|].
    exists i, o, fl, ls; simpl.
    split_and!; [done|done|done|eauto|done|done|done|done|lists|lengths].
Qed.

(** On a sound queue that holds nothing, [get] does not return. *)
Lemma get_sound_nil (block : bool) (timeout : Q) (w w' : world)
    (r : outcome A) :
  sound w [] → get block timeout w = (r, w') → idle r.
Proof.
  destruct w as [[bs sd sz f qi qo] d clk n].
  intros (i & o & fl & ls & Hi & Ho & Hf & [dir Hd] & Hnd & Hinfo & Hc & Hne & Hitems & Hsz);
    simpl in *; subst.
  symmetry in Hitems. apply app_eq_nil in Hitems as [-> Hitems].
  apply app_eq_nil in Hitems as [Hls ->].
  destruct fl as [|f0 fl].
  - run. unfold idle. intros Hget.
    repeat (case_match; simplify_eq/=); eauto.
  - apply chunks_cons_inv in Hc as (l & ls' & -> & _ & _).
    apply Forall_cons in Hne as [Hl0 _]. simpl in Hls.
    apply app_eq_nil in Hls as [-> _]. done.
Qed.

(** The worlds one thread reaches from a fresh directory while every [put]
    finds the next chunk name fresh, with the items put and the items got
    so far. *)
Inductive history (bs : Z) (sd : bool) (d0 : option (gmap string pyobj)) :
    world → list A → list A → Prop :=
  | history_init q d clk n :
      fresh d0 →
      init bs sd d0 = (Return q, d) →
      history bs sd d0 (mkWorld q d clk n) [] []
  | history_put w puts gets item w' :
      history bs sd d0 w puts gets →
      fresh_name w →
      put item w = (Return tt, w') →
      history bs sd d0 w' (puts ++ [item]) gets
  | history_get w puts gets block timeout n x w' :
      history bs sd d0 w puts gets →
      call n (get block timeout) resume w = (Return x, w') →
      history bs sd d0 w' puts (gets ++ [x])
  | history_get_Empty w puts gets block timeout n w' :
      history bs sd d0 w puts gets →
      call n (get block timeout) resume w = (Raise Empty, w') →
      history bs sd d0 w' puts gets.

Lemma sound_unchanged (w w' : world) (items : list A) :
  self w' = self w → disk w' = disk w → sound w items → sound w' items.
Proof. unfold sound. by intros -> ->. Qed.

Lemma init_sound bs sd d0 q d clk n :
  fresh d0 → init bs sd d0 = (Return q, d) → sound (mkWorld q d clk n) [].
Proof.
  unfold init. intros [-> | ->]; rewrite lookup_empty; intros [= <- <-];
    exists [], [], [], []; simpl;
    (split_and!; [done|done|done|eauto|constructor|apply not_elem_of_nil
                 |done|done|done|done]).
Qed.

(** FIFO while chunk names are fresh: at every point of a history the
    queue is sound, and the items put are the items got followed by the
    items the queue still holds, in order. *)
Lemma history_sound bs sd d0 w puts gets :
  history bs sd d0 w puts gets →
  ∃ rest, sound w rest ∧ puts = gets ++ rest.
Proof.
  induction 1 as [q d clk n Hfresh Hinit
    | w puts gets item w' _ (rest & Hsound & ->) Hname Hput
    | w puts gets block timeout n x w' _ (rest & Hsound & ->) Hcall
    | w puts gets block timeout n w' _ (rest & Hsound & ->) Hcall].
  - exists []. split; [by eapply init_sound|done].
  - destruct (put_sound item w rest Hsound Hname) as (w'' & Hput' & Hsound').
    rewrite Hput in Hput'. injection Hput' as <-.
    exists (rest ++ [item]). split; [done|]. by rewrite app_assoc.
  - apply call_get in Hcall as [Hget | ([? | [k ?]] & _)]; [|done..].
    destruct rest as [|y rest].
    + apply (get_sound_nil _ _ _ _ _ Hsound) in Hget as [? | [k ?]]; done.
    + destruct (get_sound block timeout w y rest Hsound) as (w'' & Hget' & Hsound').
      rewrite Hget in Hget'. injection Hget' as <- <-.
      exists rest. split; [done|]. by rewrite <- app_assoc.
  - apply call_get_idle in Hcall as [Hself Hdisk]; [|by left].
    exists rest. split; [|done]. by eapply sound_unchanged.
Qed.

(** The items got are the first of the items put, in the same order, and
    the queue holds the others, in the order [get] will serve them. *)
Theorem fifo_while_names_fresh bs sd d0 w puts gets :
  history bs sd d0 w puts gets →
  gets `prefix_of` puts ∧
  ∃ rest, contents w = Some rest ∧ puts = gets ++ rest.
Proof.
  intros (rest & Hsound & ->)%history_sound. split; [by exists rest|].
  exists rest. split; [by apply sound_contents|done].
Qed.

(** [size] is the number of items in incoming, outgoing and the chunks. *)
Theorem size_while_names_fresh bs sd d0 w puts gets :
  history bs sd d0 w puts gets → accounted w = Some (size (self w)).
Proof.
  intros (rest & Hsound & _)%history_sound. by eapply sound_accounted.
Qed.

(** [put] always returns, and [get] returns the oldest item not yet got
    whenever there is one. *)
Theorem progress_while_names_fresh bs sd d0 w puts gets :
  history bs sd d0 w puts gets →
  (∀ item, fresh_name w → ∃ w', put item w = (Return tt, w')) ∧
  (∀ x rest block timeout, puts = gets ++ x :: rest →
     ∃ w', get block timeout w = (Return x, w')).
Proof.
  intros (rest & Hsound & ->)%history_sound. split.
  - intros item Hname.
    destruct (put_sound item w rest Hsound Hname) as (w' & ? & _). eauto.
  - intros x rest' block timeout ->%app_inv_head.
    destruct (get_sound block timeout w x rest' Hsound) as (w' & ? & _). eauto.
Qed.

(** ** Close and construct again, while chunk names are fresh *)

Lemma chunk_insert_eq (dir : gmap string pyobj) (name : string) (l : list A) :
  chunk (Some (<[name := PyDeque l]> dir)) name = Some l.
Proof. simpl. by rewrite lookup_insert_eq. Qed.

Lemma chunks_cons (d : option (gmap string pyobj)) (name : string)
    (fl : list string) (l : list A) (ls : list (list A)) :
  chunk d name = Some l → chunks d fl = Some ls →
  chunks d (name :: fl) = Some (l :: ls).
Proof.
  intros Hl Hls. change (chunks d (name :: fl)) with
    (match chunk d name, chunks d fl with
     | Some l, Some ls => Some (l :: ls)
     | _, _ => None
     end).
  by rewrite Hl, Hls.
Qed.

(** The two names [close] may give, to incoming and to outgoing, are not
    in the chunk list and differ. *)
Definition fresh_names_at_close (w : world) : Prop :=
  ∀ fl, files (self w) = Some fl →
    (chunk_name (clock w (ticks w)) ∉ fl) ∧
    (chunk_name (clock w (S (ticks w))) ∉ fl) ∧
    chunk_name (clock w (ticks w)) ≠ chunk_name (clock w (S (ticks w))).

(** A queue constructed from what [close] has saved. *)
Lemma sound_restored (bs : Z) (sd : bool) (sz : Z) (fl : list string)
    (dir : gmap string pyobj) (ls : list (list A)) (clk : nat → Q) (n : nat) :
  NoDup fl → "info"%string ∉ fl →
  chunks (Some dir) fl = Some ls → Forall (λ l, l ≠ []) ls →
  sz = Z.of_nat (length (concat ls)) →
  sound
    (mkWorld (mkFileQueue bs sd sz (Some fl) (PyDeque []) (PyDeque []))
       (Some (<["info"%string := PyIndex sz fl]> dir)) clk n)
    (concat ls).
Proof.
  intros Hnd Hinfo Hc Hne ->. exists [], [], fl, ls; simpl.
  split_and!; [done|done|done|eauto|done|done| |done|lists|lengths].
  etrans; [|exact Hc]. by apply chunks_insert_fresh.
Qed.

(** Round trip while chunk names are fresh: [close] with [save_data]
    returns, and a queue constructed afterwards on the directory, with
    any capacity, is sound and holds the same items in the same order. *)
Lemma close_construct_sound (w : world) (items : list A) (bs' : Z) (sd' : bool) :
  sound w items → save_data (self w) = true → fresh_names_at_close w →
  ∃ w1 w2,
    close w = (Return tt, w1) ∧
    construct bs' sd' w1 = (Return tt, w2) ∧
    sound w2 items.
Proof.
  destruct w as [[bs sd sz f qi qo] d clk n]. unfold fresh_names_at_close.
  intros (i & o & fl & ls & Hi & Ho & Hf & [dir Hd] & Hnd & Hinfo & Hc & Hne
            & Hitems & Hsz) Hsd Hnames; simpl in *; subst.
  destruct (Hnames fl eq_refl) as (Hn1 & Hn2 & Hn12).
  set (n1 := chunk_name (clk n)) in *.
  set (n2 := chunk_name (clk (S n))) in *.
  assert (n1 ≠ "info"%string) as Hi1 by apply chunk_name_not_info.
  assert (n2 ≠ "info"%string) as Hi2 by apply chunk_name_not_info.
  destruct i as [|x i], o as [|y o].
  - (* nothing in memory *)
    destruct fl as [|f0 fl].
    + injection Hc as <-.
      run. eexists _, _. split; [reflexivity|]. split; [reflexivity|].
      eapply init_sound; [by left|reflexivity].
    + run. eexists _, _. split; [reflexivity|].
      unfold construct, init; simpl. rewrite lookup_insert_eq.
      split; [reflexivity|]. rewrite app_nil_r.
      by apply sound_restored.
  - (* outgoing only: written first, to the head *)
    run. eexists _, _. split; [reflexivity|].
    unfold construct, init; simpl. rewrite lookup_insert_eq.
    split; [reflexivity|]. rewrite app_nil_r.
    apply (sound_restored _ _ _ (n1 :: fl) _ ((y :: o) :: ls)).
    + by apply NoDup_cons.
    + apply not_elem_of_cons. by split.
    + apply chunks_cons; [apply chunk_insert_eq|].
      etrans; [|exact Hc]. by apply chunks_insert_fresh.
    + by constructor.
    + lengths.
  - (* incoming only: written to the tail *)
    set (sz := Z.of_nat (length ([] ++ concat ls ++ x :: i))).
    exists (mkWorld (mkFileQueue bs true sz None PyNone PyNone)
              (Some (<["info"%string := PyIndex sz (fl ++ [n1])]>
                       (<[n1 := PyDeque (x :: i)]> dir))) clk (S n)).
    eexists. split; [by destruct fl|].
    unfold construct, init; simpl. rewrite lookup_insert_eq.
    split; [reflexivity|].
    replace (concat ls ++ x :: i) with (concat (ls ++ [x :: i])) by lists.
    apply (sound_restored _ _ _ (fl ++ [n1]) _ (ls ++ [x :: i])).
    + by apply NoDup_snoc_fresh.
    + apply not_elem_of_app. split; [done|].
      apply not_elem_of_cons. split; [done|apply not_elem_of_nil].
    + apply chunks_snoc; [|apply chunk_insert_eq].
      etrans; [|exact Hc]. by apply chunks_insert_fresh.
    + apply Forall_app. split; [done|]. by repeat constructor.
    + subst sz. rewrite concat_app; simpl. by rewrite app_nil_r.
  - (* both: incoming to the tail, then outgoing to the head *)
    run. eexists _, _. split; [reflexivity|].
    unfold construct, init; simpl. rewrite lookup_insert_eq.
    split; [reflexivity|].
    replace (y :: o ++ concat ls ++ x :: i)
      with (concat ((y :: o) :: ls ++ [x :: i])) by lists.
    apply (sound_restored _ _ _ (n2 :: fl ++ [n1]) _ ((y :: o) :: ls ++ [x :: i])).
    + apply NoDup_cons. split; [|by apply NoDup_snoc_fresh].
      intros [?|Hin%list_elem_of_singleton]%elem_of_app; [done|]. by subst.
    + apply not_elem_of_cons. split; [done|].
      apply not_elem_of_app. split; [done|].
      apply not_elem_of_cons. split; [done|apply not_elem_of_nil].
    + apply chunks_cons; [apply chunk_insert_eq|].
      etrans; [by apply chunks_insert_fresh; intros
        [?|Hin%list_elem_of_singleton]%elem_of_app; [done|by subst]|].
      apply chunks_snoc; [|apply chunk_insert_eq].
      etrans; [|exact Hc]. by apply chunks_insert_fresh.
    + constructor; [done|]. apply Forall_app. split; [done|].
      by repeat constructor.
    + simpl. rewrite concat_app; simpl. rewrite app_nil_r. lengths.
Qed.

(** [n] calls of [get()], one after the other. *)
Fixpoint get_all (n : nat) : M (list A) :=
  match n with
  | O => ret []
  | S n => x <- get true 0%Q ;; xs <- get_all n ;; ret (x :: xs)
  end.

Lemma get_all_sound (w : world) (items : list A) :
  sound w items →
  ∃ w', get_all (length items) w = (Return items, w') ∧ sound w' [].
Proof.
  revert w. induction items as [|x items IH]; intros w Hsound.
  - by exists w.
  - destruct (get_sound true 0%Q w x items Hsound) as (w1 & Hget & Hsound1).
    destruct (IH w1 Hsound1) as (w2 & Hall & Hsound2).
    exists w2. split; [|done].
    simpl. unfold bind at 1. rewrite Hget. unfold bind at 1. by rewrite Hall.
Qed.

Lemma put_save_data (item : A) (w w' : world) (r : outcome unit) :
  put item w = (r, w') → save_data (self w') = save_data (self w).
Proof.
  destruct w as [[bs sd sz f qi qo] d clk n]. run. intros Hput.
  repeat (case_match; simplify_eq/=); simplify_eq/=; reflexivity.
Qed.

Lemma get_save_data (block : bool) (timeout : Q) (w w' : world) (r : outcome A) :
  get block timeout w = (r, w') → save_data (self w') = save_data (self w).
Proof.
  destruct w as [[bs sd sz f qi qo] d clk n]. run. intros Hget.
  repeat (case_match; simplify_eq/=); simplify_eq/=; reflexivity.
Qed.

Lemma history_save_data bs sd d0 w puts gets :
  history bs sd d0 w puts gets → save_data (self w) = sd.
Proof.
  induction 1 as [q d clk n Hfresh Hinit
    | w puts gets item w' _ IH Hname Hput
    | w puts gets block timeout n x w' _ IH Hcall
    | w puts gets block timeout n w' _ IH Hcall].
  - revert Hinit. unfold init. destruct Hfresh as [-> | ->];
      rewrite lookup_empty; by intros [= <- <-].
  - by rewrite (put_save_data _ _ _ _ Hput).
  - apply call_get in Hcall as [Hget | (_ & Hself & _)].
    + by rewrite (get_save_data _ _ _ _ _ Hget).
    + by rewrite Hself.
  - apply call_get_idle in Hcall as [Hself _]; [|by left]. by rewrite Hself.
Qed.

(** Round trip while chunk names are fresh: after any history on a queue
    constructed with [save_data] on a fresh directory, [close] returns, a
    queue constructed again on the directory (with any capacity) is
    sound, and as many gets as there are items left return these items, in
    the order they were put. With no get in the history, these are all the
    items put. *)
Theorem round_trip_while_names_fresh bs d0 w puts gets rest bs' sd' :
  history bs true d0 w puts gets →
  fresh_names_at_close w →
  puts = gets ++ rest →
  ∃ w1 w2 w3,
    close w = (Return tt, w1) ∧
    construct bs' sd' w1 = (Return tt, w2) ∧
    get_all (length rest) w2 = (Return rest, w3).
Proof.
  intros Hhist Hnames ->.
  pose proof (history_save_data _ _ _ _ _ _ Hhist) as Hsd.
  apply history_sound in Hhist as (rest' & Hsound & <-%app_inv_head).
  destruct (close_construct_sound w rest bs' sd' Hsound Hsd Hnames)
    as (w1 & w2 & Hclose & Hconstruct & Hsound2).
  destruct (get_all_sound w2 rest Hsound2) as (w3 & Hall & _).
  by exists w1, w2, w3.
Qed.

(** * The rest of the class *)

(** [size()], lines 124-126, and [__len__], lines 192-193. *)
Definition qsize : M Z := q <- get_self ;; ret (size q).
Definition len : M Z := q <- get_self ;; ret (size q).

(** The properties [buffer_size] and [is_save_data], lines 133-141. *)
Definition get_buffer_size : M Z := q <- get_self ;; ret (buffer_size q).
Definition is_save_data : M bool := q <- get_self ;; ret (save_data q).

(** [__del__], lines 198-199: the finalizer closes the queue. *)
Definition del : M unit := close.

(** [q = FileQueue(buffer_dir, buffer_size, save_data)] where [q] held a
    queue. The new object is constructed first; the assignment then drops
    the last reference to the old object, and its finalizer runs at once:
    it works on the directory as the constructor left it. What the
    finalizer raises is reported and ignored. When the constructor
    raises, [q] keeps the old object. *)
Definition rebind (buffer_size : Z) (save_data : bool) : M unit := λ w,
  match init buffer_size save_data (disk w) with
  | (Return q, d) =>
      let w1 := snd (del (mkWorld (self w) d (clock w) (ticks w))) in
      (Return tt, mkWorld q (disk w1) (clock w1) (ticks w1))
  | (Raise e, d) => (Raise e, mkWorld (self w) d (clock w) (ticks w))
  | (Blocked k, d) => (Blocked k, mkWorld (self w) d (clock w) (ticks w))
  end.

(** ** What [size] counts *)

(** X1. [size] is a count of calls: a call that returns moves it by one,
    up for [put], down for [get] and [get_nowait], whatever the state of
    the queue; [close] leaves it. *)
Theorem size_counts_calls (o : op) (w w' : world) (a : answer) :
  perform o w = (Return a, w') →
  size (self w') =
    match o with
    | Construct _ _ => size (self w')
    | Put _ => size (self w) + 1
    | Get _ _ | GetNowait => size (self w) - 1
    | Close => size (self w)
    end.
Proof.
  destruct w as [[bs sd sz f qi qo] d clk n].
  destruct o as [bs' sd'|item|block timeout| |]; [reflexivity|..];
    unfold perform; run; intros Hrun;
    repeat (case_match; simplify_eq/=); simplify_eq/=; reflexivity.
Qed.

(** The worlds one thread reaches from a queue constructed on a fresh
    directory, with the items put and the items got so far. Nothing is
    asked of the clock. *)
Inductive journal (bs : Z) (sd : bool) (d0 : option (gmap string pyobj)) :
    world → list A → list A → Prop :=
  | journal_init q d clk n :
      fresh d0 →
      init bs sd d0 = (Return q, d) →
      journal bs sd d0 (mkWorld q d clk n) [] []
  | journal_put w puts gets item w' :
      journal bs sd d0 w puts gets →
      put item w = (Return tt, w') →
      journal bs sd d0 w' (puts ++ [item]) gets
  | journal_get w puts gets block timeout n x w' :
      journal bs sd d0 w puts gets →
      call n (get block timeout) resume w = (Return x, w') →
      journal bs sd d0 w' puts (gets ++ [x])
  | journal_get_Empty w puts gets block timeout n w' :
      journal bs sd d0 w puts gets →
      call n (get block timeout) resume w = (Raise Empty, w') →
      journal bs sd d0 w' puts gets.

Lemma put_size (item : A) (w w' : world) :
  put item w = (Return tt, w') → size (self w') = size (self w) + 1.
Proof.
  destruct w as [[bs sd sz f qi qo] d clk n]. run. intros Hput.
  repeat (case_match; simplify_eq/=); simplify_eq/=; reflexivity.
Qed.

Lemma get_size (block : bool) (timeout : Q) (w w' : world) (x : A) :
  get block timeout w = (Return x, w') → size (self w') = size (self w) - 1.
Proof.
  destruct w as [[bs sd sz f qi qo] d clk n]. run. intros Hget.
  repeat (case_match; simplify_eq/=); simplify_eq/=; reflexivity.
Qed.

(** X2. On a queue constructed on a fresh directory and used by one
    thread, [len(q)] and [size()] return the number of puts minus the
    number of successful gets, and change nothing: also when chunk names
    have collided and items have been lost. *)
Theorem len_is_puts_minus_gets bs sd d0 w puts gets :
  journal bs sd d0 w puts gets →
  len w = (Return (Z.of_nat (length puts) - Z.of_nat (length gets)), w) ∧
  qsize w = (Return (Z.of_nat (length puts) - Z.of_nat (length gets)), w).
Proof.
  intros Hj.
  assert (size (self w) = Z.of_nat (length puts) - Z.of_nat (length gets)) as <-;
    [|by split].
  induction Hj as [q d clk n Hfresh Hinit
    | w puts gets item w' _ IH Hput
    | w puts gets block timeout n x w' _ IH Hcall
    | w puts gets block timeout n w' _ IH Hcall].
  - revert Hinit. unfold init. destruct Hfresh as [-> | ->];
      rewrite lookup_empty; by intros [= <- <-].
  - rewrite (put_size _ _ _ Hput), length_app. simpl. lia.
  - apply call_get in Hcall as [Hget | ([? | [k ?]] & _)]; [|done..].
    rewrite (get_size _ _ _ _ _ Hget), length_app. simpl. lia.
  - apply call_get_idle in Hcall as [Hself _]; [|by left].
    rewrite Hself. exact IH.
Qed.

(** ** The chunk files *)

(** X3. What [__save_to_file] has written, [__get_from_file] reads back
    under the name the clock gave, and removes: the directory is then as
    before the write, less an older file of that name if there was one. *)
Theorem save_then_load (queue : pyobj) (tail : bool) (w : world)
    (fl : list string) (dir : gmap string pyobj) :
  files (self w) = Some fl →
  disk w = Some dir →
  let name := chunk_name (clock w (ticks w)) in
  ∃ w1 w2,
    save_to_file queue tail w = (Return tt, w1) ∧
    files (self w1) = Some (if tail then fl ++ [name] else name :: fl) ∧
    get_from_file name w1 = (Return queue, w2) ∧
    disk w2 = Some (delete name dir) ∧
    self w2 = self w1.
Proof.
  destruct w as [[bs sd sz f qi qo] d clk n]; simpl. intros -> ->.
  set (name := chunk_name (clk n)).
  set (fl' := if tail then fl ++ [name] else name :: fl).
  exists (mkWorld (mkFileQueue bs sd sz (Some fl') qi qo)
            (Some (<[name := queue]> dir)) clk (S n)),
         (mkWorld (mkFileQueue bs sd sz (Some fl') qi qo)
            (Some (delete name (<[name := queue]> dir))) clk (S n)).
  split; [reflexivity|]. split; [reflexivity|]. split.
  - cbv beta iota delta [get_from_file bind get_disk set_disk ret disk self].
    by rewrite lookup_insert_eq.
  - split; [|reflexivity]. simpl. by rewrite delete_insert_eq.
Qed.

(** X4. [__save_to_file] lists the name before it opens the file. When the
    buffer directory is gone the call fails with [IOError] and the chunk
    list is left naming a chunk that was never written. *)
Theorem save_to_file_without_directory (queue : pyobj) (tail : bool)
    (w : world) (fl : list string) :
  files (self w) = Some fl →
  disk w = None →
  let name := chunk_name (clock w (ticks w)) in
  ∃ w',
    save_to_file queue tail w = (Raise IOError, w') ∧
    files (self w') = Some (if tail then fl ++ [name] else name :: fl) ∧
    disk w' = None.
Proof.
  destruct w as [[bs sd sz f qi qo] d clk n]; simpl. intros -> ->.
  run. eexists. split; [reflexivity|]. split; reflexivity.
Qed.

(** X5. [__save_to_file] never touches the index file: whatever it writes
    goes under a decimal numeral. *)
Theorem save_to_file_keeps_info (queue : pyobj) (tail : bool) (w w' : world)
    (r : outcome unit) (dir dir' : gmap string pyobj) :
  save_to_file queue tail w = (r, w') →
  disk w = Some dir →
  disk w' = Some dir' →
  dir' !! "info"%string = dir !! "info"%string.
Proof.
  destruct w as [[bs sd sz f qi qo] d clk n]; simpl.
  unfold save_to_file, bind, time, get_self, update, get_disk, set_disk,
    raise; simpl.
  intros Hsave ->. destruct f as [fl|]; simpl in Hsave.
  - injection Hsave as <- <-. simpl. intros [= <-].
    apply lookup_insert_ne. apply chunk_name_not_info.
  - injection Hsave as <- <-. simpl. by intros [= <-].
Qed.

(** ** Failures of get *)

(** X6. [get] takes the head of the chunk list before it opens the file.
    When the file is missing the call fails with [IOError], in every mode,
    and the chunk id is gone from the list; [size], the buffers and the
    directory are as before. *)
Theorem get_with_missing_chunk (block : bool) (timeout : Q) (w : world)
    (f : string) (fl : list string) (dir : gmap string pyobj) :
  truthy (queue_out (self w)) = false →
  files (self w) = Some (f :: fl) →
  disk w = Some dir →
  dir !! f = None →
  get block timeout w =
    (Raise IOError,
     mkWorld (with_files (Some fl) (self w)) (disk w) (clock w) (ticks w)).
Proof.
  destruct w as [[bs sd sz fs qi qo] d clk n]; simpl.
  intros Hqo -> -> Hf.
  cbv beta iota delta [get bind get_self update get_from_file get_disk
    set_disk ret raise self disk files queue_out with_files truthy_files
    buffer_size save_data size queue_in clock ticks negb].
  rewrite Hqo. cbv beta iota. by rewrite Hf.
Qed.

(** X7. A chunk that holds no item makes [get] fail with [IndexError]
    after the chunk was consumed and [size] decremented. *)
Theorem get_with_empty_chunk (block : bool) (timeout : Q) (w : world)
    (f : string) (fl : list string) (dir : gmap string pyobj) :
  truthy (queue_out (self w)) = false →
  files (self w) = Some (f :: fl) →
  disk w = Some dir →
  dir !! f = Some (PyDeque []) →
  get block timeout w =
    (Raise IndexError,
     mkWorld
       (with_size (size (self w) - 1)
          (with_queue_out (PyDeque []) (with_files (Some fl) (self w))))
       (Some (delete f dir)) (clock w) (ticks w)).
Proof.
  destruct w as [[bs sd sz fs qi qo] d clk n]; simpl.
  intros Hqo -> -> Hf.
  cbv beta iota delta [get take bind get_self update get_from_file get_disk
    set_disk ret raise self disk files queue_out with_files with_queue_out
    with_size truthy_files buffer_size save_data size queue_in clock ticks
    negb].
  rewrite Hqo. cbv beta iota. by rewrite Hf.
Qed.

(** ** Close, and close again *)

(** X8. Without [save_data], [close] removes the buffer directory with
    all that is in it, whatever the queue holds; a queue constructed
    afterwards on the same place starts empty, on an empty directory. *)
Theorem close_without_save_data (w : world) (bs' : Z) (sd' : bool) :
  save_data (self w) = false →
  is_Some (disk w) →
  ∃ w1 w2,
    close w = (Return tt, w1) ∧ disk w1 = None ∧
    construct bs' sd' w1 = (Return tt, w2) ∧
    drained w2 ∧ size (self w2) = 0 ∧ disk w2 = Some ∅.
Proof.
  destruct w as [[bs sd sz f qi qo] d clk n]; simpl.
  intros -> [dir ->]. run. eexists _, _.
  split; [reflexivity|]. split; [reflexivity|].
  split; [reflexivity|]. by repeat split.
Qed.

Lemma close_clears (w w' : world) :
  close w = (Return tt, w') →
  queue_in (self w') = PyNone ∧ queue_out (self w') = PyNone ∧
  files (self w') = None.
Proof.
  destruct w as [[bs sd sz f qi qo] d clk n]. run.
  intros Hclose. repeat (case_match; simplify_eq/=); auto.
Qed.

(** X9. The finalizer closes a queue that [close] has closed already. The
    second [close] takes the branch that removes the buffer directory:
    when the first one had saved the queue there, the index and the chunks
    are deleted; when the directory is gone, it fails with [OSError]. *)
Theorem del_after_close (w w1 : world) :
  close w = (Return tt, w1) →
  del w1 =
    match disk w1 with
    | Some _ => (Return tt, mkWorld (self w1) None (clock w1) (ticks w1))
    | None => (Raise OSError, w1)
    end.
Proof.
  intros (Hqi & Hqo & Hf)%close_clears.
  destruct w1 as [[bs sd sz f qi qo] d clk n]; simpl in *; subst.
  unfold del. run. rewrite andb_false_r. by destruct d.
Qed.

(** ** Waiting *)

(** X10. A timeout that is not positive means no timeout, also when it is
    negative: on an empty queue used by one thread, a blocking [get] with
    such a timeout stays blocked through any number of wake-ups, without
    reading the clock and without ever raising [Empty]. *)
Theorem get_blocks_forever (n : nat) (timeout : Q) (w : world) :
  drained w →
  Qle_bool timeout 0%Q = true →
  call n (get true timeout) resume w = (Blocked WaitForever, w).
Proof.
  destruct w as [[bs sd sz f qi qo] d clk t]; unfold drained; simpl.
  intros (-> & -> & ->) Ht.
  assert (∀ m, call m (resume WaitForever) resume
            (mkWorld (mkFileQueue bs sd sz (Some []) (PyDeque []) (PyDeque []))
               d clk t)
          = (Blocked WaitForever,
             mkWorld (mkFileQueue bs sd sz (Some []) (PyDeque []) (PyDeque []))
               d clk t)) as Hloop.
  { induction m as [|m IH]; [reflexivity|]. simpl. exact IH. }
  destruct n as [|n]; simpl; run; rewrite Ht; simpl; [reflexivity|].
  apply Hloop.
Qed.

(** X11. The wake-up that works. A consumer is blocked on an empty queue
    whose capacity is above one; a producer puts one item; the consumer,
    woken, returns that item and leaves the queue empty as it found it,
    with or without a deadline (which is not looked at any more). *)
Theorem put_wakes_blocked_get (x : A) (k : waiter) (w : world) :
  drained w →
  1 < buffer_size (self w) →
  ∃ w1,
    put x w = (Return tt, w1) ∧
    resume k w1 = (Return x, w).
Proof.
  destruct w as [[bs sd sz f qi qo] d clk t]; unfold drained; simpl.
  intros (-> & -> & ->) Hbs.
  exists (mkWorld (mkFileQueue bs sd (sz + 1) (Some []) (PyDeque [x]) (PyDeque []))
            d clk t).
  split.
  - run. destruct (Z.leb_spec bs (Z.of_nat 1)) as [?|_]; [lia|]. reflexivity.
  - destruct k; run; repeat f_equal; lia.
Qed.

(** X12. No call changes the configuration: whatever [put], [get],
    [get_nowait] or [close] do and however they end, the properties
    [buffer_size] and [is_save_data] return afterwards what they returned
    before. *)
Theorem configuration_is_constant (o : op) (w w' : world) (r : outcome answer) :
  perform o w = (r, w') →
  (∀ bs sd, o ≠ Construct bs sd) →
  get_buffer_size w' = (Return (buffer_size (self w)), w') ∧
  is_save_data w' = (Return (save_data (self w)), w').
Proof.
  intros Hrun Ho.
  assert (buffer_size (self w') = buffer_size (self w) ∧
          save_data (self w') = save_data (self w)) as [Hbs Hsd].
  { revert Hrun. destruct w as [[bs sd sz f qi qo] d clk n].
    destruct o as [bs' sd'|item|block timeout| |];
      [by destruct (Ho bs' sd')|..];
      unfold perform; run; intros Hrun;
      repeat (case_match; simplify_eq/=); simplify_eq/=; by split. }
  unfold get_buffer_size, is_save_data, bind, get_self, ret.
  by rewrite Hbs, Hsd.
Qed.

(** ** The deadline of a timed get *)

Lemma resume_until (e : Q) (q : FileQueue) (d : option (gmap string pyobj))
    (clk : nat → Q) (t : nat) :
  truthy (queue_in q) = false →
  resume (WaitUntil e) (mkWorld q d clk t) =
    if Qle_bool (e - clk t)%Q 0%Q
    then (Raise Empty, mkWorld q d clk (S t))
    else (Blocked (WaitUntil e), mkWorld q d clk (S t)).
Proof.
  intros Hqi. run. rewrite Hqi. simpl.
  by destruct (Qle_bool (e - clk t) 0).
Qed.

Lemma deadline_passed (e t : Q) : (e <= t)%Q → Qle_bool (e - t)%Q 0%Q = true.
Proof. intros H. apply Qle_bool_iff. lra. Qed.

Lemma deadline_ahead (e t : Q) : (t < e)%Q → Qle_bool (e - t)%Q 0%Q = false.
Proof.
  intros H. destruct (Qle_bool (e - t) 0) eqn:Hle; [|done].
  apply Qle_bool_iff in Hle. lra.
Qed.

Lemma resume_until_loop (e : Q) (q : FileQueue)
    (d : option (gmap string pyobj)) (clk : nat → Q) (t m : nat) :
  truthy (queue_in q) = false →
  (∀ i, (i < m)%nat → (clk (t + i)%nat < e)%Q) →
  (e <= clk (t + m)%nat)%Q →
  ∀ n j, (j ≤ m)%nat →
    call n (resume (WaitUntil e)) resume (mkWorld q d clk (t + j)) =
      if (m - j <=? n)%nat
      then (Raise Empty, mkWorld q d clk (S (t + m)))
      else (Blocked (WaitUntil e), mkWorld q d clk (S (t + j + n))).
Proof.
  intros Hqi Hbefore Hat. induction n as [|n IH]; intros j Hj.
  - simpl call. rewrite resume_until by done.
    destruct (decide (j = m)) as [->|Hne].
    + rewrite deadline_passed by done.
      replace (m - m <=? 0)%nat with true by (symmetry; apply Nat.leb_le; lia).
      reflexivity.
    + rewrite deadline_ahead by (apply Hbefore; lia).
      replace (m - j <=? 0)%nat with false by (symmetry; apply Nat.leb_gt; lia).
      f_equal; f_equal; lia.
  - simpl call. rewrite resume_until by done.
    destruct (decide (j = m)) as [->|Hne].
    + rewrite deadline_passed by done.
      replace (m - m <=? S n)%nat with true by (symmetry; apply Nat.leb_le; lia).
      reflexivity.
    + rewrite deadline_ahead by (apply Hbefore; lia).
      replace (S (t + j)) with (t + S j)%nat by lia.
      rewrite IH by lia.
      destruct (Nat.leb_spec (m - S j) n), (Nat.leb_spec (m - j) (S n));
        try lia; [reflexivity|]. f_equal; f_equal; lia.
Qed.

Lemma call_O {R} (m : M R) (res : waiter → M R) (w : world) :
  call 0 m res w = m w.
Proof. simpl. by destruct (m w) as [[r|e|k] w']. Qed.

(** X13. A timed [get] on an empty queue used by one thread. The deadline
    is the first reading of the clock plus the timeout; each time the
    thread looks (once in the call, once per wake-up) it reads the clock
    again. If the first [m] of these readings are before the deadline and
    the next one is not, the call raises [Empty] at that reading and not
    before: with fewer than [m] wake-ups it is still blocked. In both
    cases the queue and the directory are untouched. *)
Theorem timed_get_on_empty_queue (n m : nat) (timeout : Q) (w : world) :
  drained w →
  (0 < timeout)%Q →
  (∀ i, (i < m)%nat →
     (clock w (S (ticks w) + i)%nat < clock w (ticks w) + timeout)%Q) →
  (clock w (ticks w) + timeout <= clock w (S (ticks w) + m)%nat)%Q →
  call n (get true timeout) resume w =
    if (m <=? n)%nat
    then (Raise Empty,
          mkWorld (self w) (disk w) (clock w) (S (S (ticks w) + m)))
    else (Blocked (WaitUntil (clock w (ticks w) + timeout)%Q),
          mkWorld (self w) (disk w) (clock w) (S (S (ticks w) + n))).
Proof.
  destruct w as [[bs sd sz f qi qo] d clk t]; unfold drained; simpl.
  intros (-> & -> & ->) Htimeout Hbefore Hat.
  set (q := mkFileQueue bs sd sz (Some []) (PyDeque []) (PyDeque [])).
  set (e := (clk t + timeout)%Q) in *.
  assert (Qle_bool timeout 0%Q = false) as Hpos.
  { destruct (Qle_bool timeout 0) eqn:Hle; [|done].
    apply Qle_bool_iff in Hle. lra. }
  assert (get true timeout (mkWorld q d clk t) =
          resume (WaitUntil e) (mkWorld q d clk (S t))) as Hget.
  { rewrite resume_until by done. subst q e. run. rewrite Hpos. simpl.
    by destruct (Qle_bool (clk t + timeout - clk (S t)) 0). }
  pose proof (resume_until_loop e q d clk (S t) m eq_refl Hbefore Hat) as Hloop.
  destruct n as [|n].
  - specialize (Hloop 0%nat 0%nat ltac:(lia)).
    rewrite call_O in Hloop. rewrite call_O, Hget.
    replace (S t + 0)%nat with (S t) in Hloop by lia.
    rewrite Hloop. rewrite Nat.sub_0_r.
    destruct (m <=? 0)%nat; [reflexivity|]. f_equal; f_equal; lia.
  - simpl call. rewrite Hget. rewrite resume_until by done.
    destruct (decide (m = 0%nat)) as [->|Hm].
    + rewrite deadline_passed
        by (by replace (S t) with (S t + 0)%nat by lia).
      simpl. f_equal; f_equal; lia.
    + rewrite deadline_ahead
        by (replace (S t) with (S t + 0)%nat by lia; apply Hbefore; lia).
      specialize (Hloop n 1%nat ltac:(lia)).
      replace (S t + 1)%nat with (S (S t)) in Hloop by lia.
      rewrite Hloop.
      destruct (Nat.leb_spec (m - 1) n), (Nat.leb_spec m (S n));
        try lia; [reflexivity|]. f_equal; f_equal; lia.
Qed.

(** ** Chunk names and the clock *)

Lemma int_floor (x : Q) : (0 <= x)%Q → int x = Qfloor x.
Proof.
  destruct x as [n d]. unfold int, Qfloor, Qle; simpl. intros Hn.
  apply Z.quot_div_nonneg; lia.
Qed.

Lemma int_ms_lt (t1 t2 : Q) :
  (0 <= t1)%Q → (t1 + (1 # 1000) <= t2)%Q →
  int (t1 * 1000)%Q < int (t2 * 1000)%Q.
Proof.
  intros H0 Hstep.
  rewrite !int_floor by lra.
  pose proof (Qfloor_le (t1 * 1000)%Q) as Hlo.
  pose proof (Qlt_floor (t2 * 1000)%Q) as Hhi.
  rewrite Zlt_Qlt. rewrite inject_Z_plus in Hhi.
  change (inject_Z 1) with 1%Q in Hhi. lra.
Qed.

Lemma chunk_name_ms (t1 t2 : Q) :
  chunk_name t1 = chunk_name t2 → int (t1 * 1000)%Q = int (t2 * 1000)%Q.
Proof. unfold chunk_name, str. apply (inj pretty). Qed.

(** X14. Two readings of the clock give the same chunk name exactly when
    they fall in the same millisecond; readings at least a millisecond
    apart (time counted from zero) give different names. *)
Theorem chunk_names_and_milliseconds (t1 t2 : Q) :
  (chunk_name t1 = chunk_name t2 ↔ int (t1 * 1000)%Q = int (t2 * 1000)%Q) ∧
  ((0 <= t1)%Q → (t1 + (1 # 1000) <= t2)%Q → chunk_name t1 ≠ chunk_name t2).
Proof.
  split; [split|].
  - apply chunk_name_ms.
  - unfold chunk_name. by intros ->.
  - intros H0 Hstep Heq%chunk_name_ms.
    pose proof (int_ms_lt t1 t2 H0 Hstep). lia.
Qed.

(** ** A clock that moves a millisecond between readings *)

(** Every reading is non-negative and at least a millisecond after the
    one before. *)
Definition spaced (clk : nat → Q) : Prop :=
  ∀ k, (0 <= clk k)%Q ∧ (clk k + (1 # 1000) <= clk (S k))%Q.

Lemma spaced_ms_lt (clk : nat → Q) (j k : nat) :
  spaced clk → (j < k)%nat →
  int (clk j * 1000)%Q < int (clk k * 1000)%Q.
Proof.
  intros Hclk. induction k as [|k IH]; [lia|]. intros Hjk.
  destruct (Hclk k) as [H0 Hstep].
  pose proof (int_ms_lt _ _ H0 Hstep) as Hk.
  destruct (decide (j = k)) as [->|Hne]; [done|].
  etrans; [apply IH; lia|done].
Qed.

(** Every name in the chunk list was made from an earlier reading. *)
Definition named (w : world) : Prop :=
  ∀ fl, files (self w) = Some fl →
    ∀ f, f ∈ fl → ∃ k, (k < ticks w)%nat ∧ f = chunk_name (clock w k).

Lemma named_fresh (w : world) : spaced (clock w) → named w → fresh_name w.
Proof.
  intros Hclk Hnamed fl Hfl Hin.
  destruct (Hnamed fl Hfl _ Hin) as (k & Hk & Heq).
  apply chunk_name_ms in Heq.
  pose proof (spaced_ms_lt (clock w) k (ticks w) Hclk Hk). lia.
Qed.

Ltac named_tac Hnamed n :=
  let fl' := fresh "fl" in let Hfl := fresh "Hfl" in
  let f' := fresh "f" in let Hin := fresh "Hin" in
  intros fl' Hfl f' Hin; simplify_eq/=; set_unfold in Hin;
  repeat match goal with H : _ ∨ _ |- _ => destruct H end;
  first
    [ let k := fresh "k" in
      edestruct (Hnamed _ eq_refl f') as (k & ? & ?); [set_solver|];
      exists k; split; [lia|done]
    | exists n; split; [lia|]; subst; reflexivity ].

Lemma put_named (item : A) (w w' : world) (r : outcome unit) :
  put item w = (r, w') → named w → named w' ∧ clock w' = clock w.
Proof.
  destruct w as [[bs sd sz f qi qo] d clk n]. unfold named. run.
  intros Hput Hnamed.
  repeat (case_match; simplify_eq/=); simplify_eq/=;
    (split; [|reflexivity]); named_tac Hnamed n.
Qed.

Lemma put_clock (item : A) (w w' : world) (r : outcome unit) :
  put item w = (r, w') → clock w' = clock w.
Proof.
  destruct w as [[bs sd sz f qi qo] d clk n]. run. intros Hput.
  repeat (case_match; simplify_eq/=); simplify_eq/=; reflexivity.
Qed.

(** What [get] and a woken thread leave of the clock and the chunk list:
    the same clock, read no less often, and a chunk list that holds only
    names it held before. *)
Definition later (w w' : world) : Prop :=
  clock w' = clock w ∧ (ticks w ≤ ticks w')%nat ∧
  ∀ fl', files (self w') = Some fl' →
    ∃ fl, files (self w) = Some fl ∧ fl' ⊆ fl.

Lemma later_trans (w1 w2 w3 : world) : later w1 w2 → later w2 w3 → later w1 w3.
Proof.
  intros (Hc1 & Ht1 & Hf1) (Hc2 & Ht2 & Hf2). split; [congruence|].
  split; [lia|]. intros fl3 H3.
  destruct (Hf2 _ H3) as (fl2 & H2 & Hsub2).
  destruct (Hf1 _ H2) as (fl1 & H1 & Hsub1).
  exists fl1. split; [done|set_solver].
Qed.

Lemma later_named (w w' : world) : later w w' → named w → named w'.
Proof.
  intros (Hc & Ht & Hf) Hnamed fl' Hfl' f Hin.
  destruct (Hf _ Hfl') as (fl & Hfl & Hsub).
  destruct (Hnamed fl Hfl f) as (k & Hk & ->); [set_solver|].
  exists k. split; [lia|by rewrite Hc].
Qed.

Ltac later_tac :=
  split; [reflexivity|]; split; [simpl; lia|];
  let fl' := fresh "fl" in let Hfl := fresh "Hfl" in
  intros fl' Hfl; simplify_eq/=; eexists; split; [reflexivity|set_solver].

Lemma get_later (block : bool) (timeout : Q) (w w' : world) (r : outcome A) :
  get block timeout w = (r, w') → later w w'.
Proof.
  destruct w as [[bs sd sz f qi qo] d clk n]. unfold later. run.
  intros Hget.
  repeat (case_match; simplify_eq/=); simplify_eq/=; later_tac.
Qed.

Lemma resume_later (k : waiter) (w w' : world) (r : outcome A) :
  resume k w = (r, w') → later w w'.
Proof.
  destruct w as [[bs sd sz f qi qo] d clk n]. unfold later. run.
  intros Hres.
  repeat (case_match; simplify_eq/=); simplify_eq/=; later_tac.
Qed.

Lemma call_resume_later (n : nat) (k : waiter) (w w' : world) (r : outcome A) :
  call n (resume k) resume w = (r, w') → later w w'.
Proof.
  revert k w. induction n as [|n IH]; intros k w; simpl;
    destruct (resume k w) as [[x|e|k'] w0] eqn:Hres;
    apply resume_later in Hres; try (by intros [= <- <-]).
  intros Hcall%IH. by eapply later_trans.
Qed.

Lemma call_get_later (n : nat) (block : bool) (timeout : Q) (w w' : world)
    (r : outcome A) :
  call n (get block timeout) resume w = (r, w') → later w w'.
Proof.
  destruct n as [|n]; simpl;
    destruct (get block timeout w) as [[x|e|k'] w0] eqn:Hget;
    apply get_later in Hget; try (by intros [= <- <-]).
  intros Hcall%call_resume_later. by eapply later_trans.
Qed.

(** With a spaced clock every [put] of a journal finds its chunk name
    fresh: the journal is a history. *)
Lemma journal_history bs sd d0 w puts gets :
  journal bs sd d0 w puts gets → spaced (clock w) →
  history bs sd d0 w puts gets ∧ named w.
Proof.
  induction 1 as [q d clk n Hfresh Hinit
    | w puts gets item w' _ IH Hput
    | w puts gets block timeout n x w' _ IH Hcall
    | w puts gets block timeout n w' _ IH Hcall]; intros Hclk.
  - split; [by constructor|].
    revert Hinit. unfold init. destruct Hfresh as [-> | ->];
      rewrite lookup_empty; intros [= <- <-] fl [= <-] f Hin;
      by apply elem_of_nil in Hin.
  - rewrite (put_clock _ _ _ _ Hput) in Hclk. destruct (IH Hclk) as [Hh Hn].
    split; [|apply (put_named _ _ _ _ Hput Hn)].
    eapply history_put; [done|by apply named_fresh|done].
  - pose proof (call_get_later _ _ _ _ _ _ Hcall) as Hl.
    destruct Hl as (Hc & ?). rewrite Hc in Hclk. destruct (IH Hclk) as [Hh Hn].
    split; [by eapply history_get|].
    eapply later_named; [|done]. by eapply call_get_later.
  - pose proof (call_get_later _ _ _ _ _ _ Hcall) as Hl.
    destruct Hl as (Hc & ?). rewrite Hc in Hclk. destruct (IH Hclk) as [Hh Hn].
    split; [by eapply history_get_Empty|].
    eapply later_named; [|done]. by eapply call_get_later.
Qed.

(** X15. With a clock that moves at least a millisecond between readings,
    a queue constructed on a fresh directory and used by one thread is
    first in, first out: the items got are the first of the items put, in
    the same order; the queue holds the others, in the order [get] will
    serve them; [size] counts them; and [get] returns the oldest of them
    whenever there is one. *)
Theorem fifo_with_spaced_clock bs sd d0 w puts gets :
  journal bs sd d0 w puts gets → spaced (clock w) →
  gets `prefix_of` puts ∧
  (∃ rest, contents w = Some rest ∧ puts = gets ++ rest) ∧
  accounted w = Some (size (self w)) ∧
  (∀ x rest block timeout, puts = gets ++ x :: rest →
     ∃ w', get block timeout w = (Return x, w')).
Proof.
  intros Hj Hclk. destruct (journal_history _ _ _ _ _ _ Hj Hclk) as [Hh _].
  destruct (history_sound _ _ _ _ _ _ Hh) as (rest & Hsound & ->).
  split; [by exists rest|].
  split; [exists rest; split; [by apply sound_contents|done]|].
  split; [by eapply sound_accounted|].
  intros x rest' block timeout ->%app_inv_head.
  destruct (get_sound block timeout w x rest' Hsound) as (w' & ? & _). eauto.
Qed.

Lemma named_fresh_at_close (w : world) :
  spaced (clock w) → named w → fresh_names_at_close w.
Proof.
  intros Hclk Hnamed fl Hfl.
  pose proof (spaced_ms_lt (clock w) (ticks w) (S (ticks w)) Hclk) as Hnext.
  split_and!.
  - by apply (named_fresh w Hclk Hnamed).
  - intros Hin. destruct (Hnamed fl Hfl _ Hin) as (k & Hk & Heq).
    apply chunk_name_ms in Heq.
    pose proof (spaced_ms_lt (clock w) k (S (ticks w)) Hclk). lia.
  - intros Heq%chunk_name_ms. lia.
Qed.

(** X16. With a clock that moves at least a millisecond between readings,
    data saved at [close] comes back, as long as the closed queue object
    stays referenced (its finalizer has not run): after any use by one
    thread of a queue constructed with [save_data] on a fresh directory,
    [close] returns, a second queue can be constructed on the directory
    ([construct]: no finalizer runs), with any capacity, and as many gets
    on it as there were items left return these items, in the order they
    were put. What happens when the closed object is dropped instead is
    [rebinding_removes_saved_queue]. *)
Theorem round_trip_with_spaced_clock bs d0 w puts gets rest bs' sd' :
  journal bs true d0 w puts gets → spaced (clock w) →
  puts = gets ++ rest →
  ∃ w1 w2 w3,
    close w = (Return tt, w1) ∧
    construct bs' sd' w1 = (Return tt, w2) ∧
    get_all (length rest) w2 = (Return rest, w3).
Proof.
  intros Hj Hclk ->.
  destruct (journal_history _ _ _ _ _ _ Hj Hclk) as [Hhist Hnamed].
  pose proof (history_save_data _ _ _ _ _ _ Hhist) as Hsd.
  apply history_sound in Hhist as (rest' & Hsound & <-%app_inv_head).
  destruct (close_construct_sound w rest bs' sd' Hsound Hsd
              (named_fresh_at_close w Hclk Hnamed))
    as (w1 & w2 & Hclose & Hconstruct & Hsound2).
  destruct (get_all_sound w2 rest Hsound2) as (w3 & Hall & _).
  by exists w1, w2, w3.
Qed.

(** ** What stays in memory *)

(** What [put] and a successful [get] keep true of a queue built with
    capacity [bs] on a fresh directory: incoming is shorter than [bs],
    outgoing no longer than [bs], and so is every chunk on disk. *)
Definition within_capacity (bs : Z) (w : world) : Prop :=
  buffer_size (self w) = bs ∧
  (∃ i o, queue_in (self w) = PyDeque i ∧ queue_out (self w) = PyDeque o ∧
          Z.of_nat (length i) < bs ∧ Z.of_nat (length o) ≤ bs) ∧
  ∀ dir name obj, disk w = Some dir → dir !! name = Some obj →
    ∃ l, obj = PyDeque l ∧ Z.of_nat (length l) ≤ bs.

Ltac within_tac Hdisk :=
  split; [reflexivity|]; split;
  [ eexists _, _; simpl; split_and!; [reflexivity|reflexivity|..];
    rewrite ?length_app in *; simpl in *;
    first
      [ lia
      | edestruct Hdisk as (? & ? & ?); [reflexivity|eassumption|];
        simplify_eq/=; lia ]
  | let Hlook := fresh "Hlook" in
    intros ? ? ? ? Hlook; simplify_eq/=;
    first
      [ by eapply Hdisk
      | apply lookup_insert_Some in Hlook as [[<- <-]|[? Hlook]];
        [eexists; split; [reflexivity|rewrite ?length_app; simpl; lia]
        |by eapply Hdisk]
      | apply lookup_delete_Some in Hlook as [? Hlook]; by eapply Hdisk ] ].

Lemma init_within_capacity bs sd d0 q d clk n :
  1 ≤ bs → fresh d0 → init bs sd d0 = (Return q, d) →
  within_capacity bs (mkWorld q d clk n).
Proof.
  intros Hbs Hfresh. unfold init. destruct Hfresh as [-> | ->];
    rewrite lookup_empty; intros [= <- <-];
    (split; [reflexivity|]); (split; [exists [], []; simpl; auto with lia|]);
    by intros dir name obj [= <-] Hlook.
Qed.

Lemma put_within_capacity bs item w w' :
  1 ≤ bs → within_capacity bs w → put item w = (Return tt, w') →
  within_capacity bs w'.
Proof.
  intros Hbs. destruct w as [[bs' sd sz f qi qo] d clk n].
  intros (Hb & (i & o & Hqi & Hqo & Hi & Ho) & Hdisk); simpl in *; subst. run.
  destruct (Z.leb_spec bs (Z.of_nat (length (i ++ [item])))) as [Hge|Hlt].
  - intros Hput. destruct o as [|y o]; simpl in Hput;
      rewrite ?andb_false_r, ?andb_true_r in Hput;
      repeat (case_match; simplify_eq/=); within_tac Hdisk.
  - intros [= <-]. within_tac Hdisk.
Qed.

Lemma get_within_capacity bs block timeout w x w' :
  1 ≤ bs → within_capacity bs w → get block timeout w = (Return x, w') →
  within_capacity bs w'.
Proof.
  intros Hbs. destruct w as [[bs' sd sz f qi qo] d clk n].
  intros (Hb & (i & o & Hqi & Hqo & Hi & Ho) & Hdisk); simpl in *; subst. run.
  destruct o as [|y o], i as [|z i]; simpl; intros Hget;
    repeat (case_match; simplify_eq/=); simplify_eq/=; within_tac Hdisk.
Qed.

(** X17. What the buffer directory is for: with a capacity of at least
    one, a queue constructed on a fresh directory and used by one thread
    never holds more than twice its capacity in memory, however many items
    are put. Incoming is shorter than the capacity and outgoing no longer
    than it, also when chunk names have collided. *)
Theorem resident_items_bounded bs sd d0 w puts gets :
  1 ≤ bs →
  journal bs sd d0 w puts gets →
  ∃ i o, queue_in (self w) = PyDeque i ∧ queue_out (self w) = PyDeque o ∧
         Z.of_nat (length i) < bs ∧ Z.of_nat (length o) ≤ bs.
Proof.
  intros Hbs Hj.
  assert (within_capacity bs w) as (_ & Hmem & _); [|done].
  induction Hj as [q d clk n Hfresh Hinit
    | w puts gets item w' _ IH Hput
    | w puts gets block timeout n x w' _ IH Hcall
    | w puts gets block timeout n w' _ IH Hcall].
  - by eapply init_within_capacity.
  - by eapply put_within_capacity.
  - apply call_get in Hcall as [Hget | ([? | [k ?]] & _)]; [|done..].
    by eapply get_within_capacity.
  - apply call_get_idle in Hcall as [Hself Hdisk]; [|by left].
    unfold within_capacity in *. by rewrite Hself, Hdisk.
Qed.

(** ** More of close *)

(** X18. Closing an empty queue removes the buffer directory, with or
    without [save_data]: there is nothing to save, and no index is
    written. *)
Theorem close_of_empty_queue (w : world) :
  drained w →
  is_Some (disk w) →
  ∃ w1, close w = (Return tt, w1) ∧ disk w1 = None ∧
        size (self w1) = size (self w).
Proof.
  destruct w as [[bs sd sz f qi qo] d clk n]; unfold drained; simpl.
  intros (-> & -> & ->) [dir ->]. run.
  destruct sd; simpl; eexists; (split; [reflexivity|]); by split.
Qed.

(** X19. A [close] that fails has not closed the queue: the exception
    leaves lines 188-190 unexecuted, so incoming, outgoing and [size] are
    as they were, and the chunk list is still a list. *)
Theorem failed_close_leaves_queue_open (w w' : world) (e : exn) :
  close w = (Raise e, w') →
  queue_in (self w') = queue_in (self w) ∧
  queue_out (self w') = queue_out (self w) ∧
  (files (self w) ≠ None → files (self w') ≠ None) ∧
  size (self w') = size (self w).
Proof.
  destruct w as [[bs sd sz f qi qo] d clk n]. run. intros Hclose.
  repeat (case_match; simplify_eq/=); simplify_eq/=; by split_and!.
Qed.

(** ** The finalizer of a closed queue *)

(** X20. Data saved at [close] does not survive the closed object: when
    [close] has returned and left the directory in place (it has written
    the index), and a new queue is bound to the same variable, the
    constructor restores [size] and the chunk list from the index, and
    then the finalizer of the old object removes the directory with the
    index and the chunks. The new queue lists chunks that are gone: its
    [get] fails with [IOError] in every mode, dropping the first chunk
    id. *)
Theorem rebinding_removes_saved_queue (w w1 : world) (bs' : Z) (sd' : bool) :
  close w = (Return tt, w1) →
  is_Some (disk w1) →
  ∃ w2 f fl,
    rebind bs' sd' w1 = (Return tt, w2) ∧
    size (self w2) = size (self w) ∧
    files (self w2) = Some (f :: fl) ∧
    disk w2 = None ∧
    ∀ block timeout,
      get block timeout w2 =
        (Raise IOError,
         mkWorld (with_files (Some fl) (self w2)) None (clock w2) (ticks w2)).
Proof.
  destruct w as [[bs sd sz f qi qo] d clk n]. run. intros Hclose [dir Hd].
  repeat (case_match; simplify_eq/=); simplify_eq/=;
    unfold rebind, init, del; simpl; rewrite lookup_insert_eq; run;
    rewrite andb_false_r; simpl;
    eexists _, _, _; split_and!; reflexivity.
Qed.

End FileQueue.

Arguments pyobj A : clear implicits.
Arguments FileQueue A : clear implicits.
Arguments world A : clear implicits.
Arguments op A : clear implicits.
Arguments answer A : clear implicits.

(** * The defects, on concrete runs

    Items are numbers. The clock is read every tenth of a millisecond from
    5 s on, as by a client that calls the queue in a tight loop: the first
    ten readings fall in the millisecond 5000. *)

Definition fast_clock (n : nat) : Q := (Z.of_nat n + 50000) # 10000.

Example fast_clock_names :
  chunk_name (fast_clock 0) = "5000"%string ∧
  chunk_name (fast_clock 1) = "5000"%string ∧
  chunk_name (fast_clock 10) = "5001"%string.
Proof. vm_compute. auto. Qed.

(** The queue of capacity 1 after [put 1; put 2], all within the
    millisecond 5000: 1 is in outgoing, 2 in the chunk 5000. *)
Definition w_two : world nat :=
  snd (script [Construct 1 false; Put 1; Put 2]%nat (nothing fast_clock)).

(** C6. [__save_to_file] names the chunk after the millisecond of the
    clock, whatever the chunk list holds. Capacity 1, fresh directory: the
    second [put] spills [2] into the chunk 5000; the third [put], within
    the same millisecond, spills [3] under the same name: the chunk list
    lists 5000 twice and the file of the queued chunk is overwritten. *)
Theorem spill_reuses_chunk_id :
  fst (script [Construct 1 false; Put 1; Put 2]%nat (nothing fast_clock))
    = [Return Done; Return Done; Return Done] ∧
  files (self w_two) = Some ["5000"%string] ∧
  chunk (disk w_two) "5000" = Some [2%nat] ∧
  fst (put 3%nat w_two) = Return tt ∧
  files (self (snd (put 3%nat w_two))) = Some ["5000"%string; "5000"%string] ∧
  chunk (disk (snd (put 3%nat w_two))) "5000" = Some [3%nat].
Proof. vm_compute. repeat split. Qed.

(** C1. Capacity 1, fresh directory, three puts within one millisecond,
    then two gets: both gets succeed and return 1 and then 3, where 1, 2,
    3 were put. *)
Theorem fifo_broken_within_a_millisecond :
  fst (script [Construct 1 false; Put 1; Put 2; Put 3; Get true 0; Get true 0]%nat
         (nothing fast_clock))
  = [Return Done; Return Done; Return Done; Return Done;
     Return (Item 1%nat); Return (Item 3%nat)].
Proof. vm_compute. reflexivity. Qed.

(** C2. Capacity 2, [save_data] true, fresh directory: put 1, 2, 3, close,
    construct again on the directory, get three times. [close] writes
    incoming and then outgoing within one millisecond, both under the name
    5000, so the second write replaces the first: the gets return 1 and 2,
    and the third fails for want of the file. *)
Theorem round_trip_broken_within_a_millisecond :
  fst (script [Construct 2 true; Put 1; Put 2; Put 3; Close;
               Construct 2 true; Get true 0; Get true 0; Get true 0]%nat
         (nothing fast_clock))
  = [Return Done; Return Done; Return Done; Return Done; Return Done;
     Return Done; Return (Item 1%nat); Return (Item 2%nat); Raise IOError].
Proof. vm_compute. reflexivity. Qed.

(** The queue of C1 after its two successful gets. *)
Definition w_lost : world nat :=
  snd (script [Construct 1 false; Put 1; Put 2; Put 3; Get true 0; Get true 0]%nat
         (nothing fast_clock)).

(** C4. After the run of C1 (construction, three puts, two successful
    gets) [size] is 1, while incoming and outgoing are empty and the one
    chunk left in the chunk list has no file, hence no buffer, on disk. *)
Theorem size_broken_within_a_millisecond :
  fst (script [Construct 1 false; Put 1; Put 2; Put 3; Get true 0; Get true 0]%nat
         (nothing fast_clock))
    = [Return Done; Return Done; Return Done; Return Done;
       Return (Item 1%nat); Return (Item 3%nat)] ∧
  size (self w_lost) = 1 ∧
  queue_in (self w_lost) = PyDeque [] ∧
  queue_out (self w_lost) = PyDeque [] ∧
  files (self w_lost) = Some ["5000"%string] ∧
  disk w_lost = Some ∅ ∧
  accounted w_lost = None.
Proof. vm_compute. repeat split. Qed.

(** A fresh queue of capacity 1 on which a consumer has called [get()] and
    is blocked, and the same after a producer has put 7. *)
Definition w_waiting : world nat :=
  snd (script [Construct 1 false; Get true 0] (nothing fast_clock)).

Definition w_notified : world nat := snd (put 7%nat w_waiting).

(** C5. Capacity 1, fresh directory. A consumer calls [get()] and blocks;
    a producer puts 7, which the swap of [put] moves to outgoing, and
    notifies. The woken consumer tests incoming only, finds it empty and
    waits again, changing nothing, although outgoing holds 7 and a [get]
    entered from the top returns it. *)
Theorem woken_get_tests_incoming_only :
  fst (script [Construct 1 false; Get true 0] (nothing (A:=nat) fast_clock))
    = [Return Done; Blocked WaitForever] ∧
  fst (put 7%nat w_waiting) = Return tt ∧
  queue_out (self w_notified) = PyDeque [7%nat] ∧
  queue_in (self w_notified) = PyDeque [] ∧
  fst (resume WaitForever w_notified) = Blocked WaitForever ∧
  self (snd (resume WaitForever w_notified)) = self w_notified ∧
  fst (get true 0 w_notified) = Return 7%nat.
Proof. vm_compute. repeat split. Qed.

(** C8 fails for the blocking [get]: on a queue that has been closed,
    [get()] does not raise; it waits on the condition. *)
Lemma closed_get_blocks :
  fst (script [Construct 1 false; Close; Get true 0] (nothing (A:=nat) fast_clock))
  = [Return Done; Return Done; Blocked WaitForever].
Proof. vm_compute. reflexivity. Qed.

(** For comparison, the same runs with a clock read once per millisecond
    from 5 s on, so that every chunk gets a name of its own: the gets
    return 1, 2, 3, before and after a round trip. *)

Definition slow_clock (n : nat) : Q := (Z.of_nat n + 5000) # 1000.

Example fifo_with_slow_clock :
  fst (script [Construct 1 false; Put 1; Put 2; Put 3;
               Get true 0; Get true 0; Get true 0]%nat
         (nothing slow_clock))
  = [Return Done; Return Done; Return Done; Return Done;
     Return (Item 1%nat); Return (Item 2%nat); Return (Item 3%nat)].
Proof. vm_compute. reflexivity. Qed.

Example round_trip_with_slow_clock :
  fst (script [Construct 2 true; Put 1; Put 2; Put 3; Close;
               Construct 2 true; Get true 0; Get true 0; Get true 0]%nat
         (nothing slow_clock))
  = [Return Done; Return Done; Return Done; Return Done; Return Done;
     Return Done; Return (Item 1%nat); Return (Item 2%nat); Return (Item 3%nat)].
Proof. vm_compute. reflexivity. Qed.

(** * Instances of the general results *)

(** A fresh queue of capacity 1, and the same after [put 1]. *)
Definition w_fresh : world nat :=
  mkWorld (mkFileQueue 1 false 0 (Some []) (PyDeque []) (PyDeque []))
    (Some ∅) fast_clock 0.

Definition w_one : world nat :=
  mkWorld (mkFileQueue 1 false 1 (Some []) (PyDeque []) (PyDeque [1%nat]))
    (Some ∅) fast_clock 0.

Definition w_closed : world nat :=
  mkWorld (mkFileQueue 1 false 1 None PyNone PyNone) None fast_clock 0.

Lemma put_effect_witness :
  queue_in (self w_one) = PyDeque [] ∧
  queue_out (self w_one) = PyDeque [1%nat] ∧
  files (self w_one) = Some [] ∧
  disk w_one = Some ∅ ∧
  put 2%nat w_one =
    (Return tt,
     mkWorld
       (mkFileQueue 1 false 2 (Some ["5000"%string]) (PyDeque []) (PyDeque [1%nat]))
       (Some {["5000"%string := PyDeque [2%nat]]}) fast_clock 1).
Proof.
  repeat (split; [reflexivity|]).
  exact (put_effect 2%nat w_one [] [1%nat] [] ∅ eq_refl eq_refl eq_refl eq_refl).
Defined.

Lemma get_nowait_Empty_witness :
  drained w_fresh ∧
  get false 0 w_fresh = (Raise Empty, w_fresh) ∧
  get_nowait w_fresh = (Raise Empty, w_fresh).
Proof.
  assert (drained w_fresh) as H by (repeat split).
  split; [exact H|].
  exact (proj2 (get_nowait_Empty w_fresh 0%Q) H).
Defined.

(** A [get] with a timeout of a quarter of a millisecond on the fresh
    queue: two waits, then [Empty]; four readings of the clock. *)
Lemma get_Empty_keeps_state_witness :
  let w' := mkWorld (self w_fresh) (disk w_fresh) fast_clock 4 in
  call 2 (get true (1 # 4000)) resume w_fresh = (Raise Empty, w') ∧
  self w' = self w_fresh ∧ disk w' = disk w_fresh.
Proof.
  intros w'.
  assert (call 2 (get true (1 # 4000)) resume w_fresh = (Raise Empty, w')) as H
    by (vm_compute; reflexivity).
  split; [exact H|].
  exact (get_Empty_keeps_state 2 true (1 # 4000) w_fresh w' H).
Defined.

Lemma closed_queue_operations_witness :
  close w_one = (Return tt, w_closed) ∧
  queue_in (self w_closed) = PyNone ∧
  (∀ item, put item w_closed = (Raise AttributeError, w_closed)) ∧
  get_nowait w_closed = (Raise Empty, w_closed) ∧
  get true 0 w_closed = (Blocked WaitForever, w_closed).
Proof.
  assert (close w_one = (Return tt, w_closed)) as H by (vm_compute; reflexivity).
  split; [exact H|].
  destruct (closed_queue_operations w_one w_closed H)
    as (Hqi & _ & _ & Hput & _ & Hnowait & Hblock & _).
  split; [exact Hqi|]. split; [exact Hput|]. split; [exact Hnowait|].
  apply Hblock. reflexivity.
Defined.


(** * Where C3 and C10 stop *)

(** An open queue of capacity 1 that holds [1] in outgoing, its buffer
    directory removed (by the [close] of another queue object on the
    same directory, or from outside). *)
Definition w_away : world nat :=
  mkWorld (mkFileQueue 1 false 1 (Some []) (PyDeque []) (PyDeque [1%nat]))
    None fast_clock 0.

(** C3 fails for a queue whose directory is gone: [put 2] has to spill,
    lists the chunk name, and fails with [IOError] when it opens the
    file. [size] is not incremented and incoming is not reset: it keeps
    the item. *)
Lemma put_fails_without_directory :
  queue_in (self w_away) = PyDeque [] ∧
  queue_out (self w_away) = PyDeque [1%nat] ∧
  files (self w_away) = Some [] ∧
  size (self w_away) = 1 ∧
  fst (put 2%nat w_away) = Raise IOError ∧
  size (self (snd (put 2%nat w_away))) = 1 ∧
  queue_in (self (snd (put 2%nat w_away))) = PyDeque [2%nat] ∧
  files (self (snd (put 2%nat w_away))) = Some ["5000"%string].
Proof. vm_compute. repeat split. Qed.




(** * Instances of the results on the rest of the class *)

(** [slow_clock] moves a millisecond at every reading. *)
Lemma slow_clock_spaced : spaced slow_clock.
Proof.
  intros k. unfold slow_clock, Qle, Qplus; simpl. split; lia.
Qed.

(** A run of one thread on a queue of capacity 1 with [save_data], on a
    fresh directory: three puts (a swap, then two chunks, 5000 and 5001)
    and one get. *)
Definition s_0 : world nat :=
  mkWorld (mkFileQueue 1 true 0 (Some []) (PyDeque []) (PyDeque []))
    (Some ∅) slow_clock 0.
Definition s_1 : world nat := snd (put 1%nat s_0).
Definition s_2 : world nat := snd (put 2%nat s_1).
Definition s_3 : world nat := snd (put 3%nat s_2).
Definition s_4 : world nat := snd (get true 0 s_3).
Definition s_closed : world nat := snd (close s_4).

Lemma journal_s_4 : journal 1 true None s_4 [1; 2; 3]%nat [1%nat].
Proof.
  apply (journal_get 1 true None s_3 [1; 2; 3]%nat [] true 0%Q 0%nat 1%nat s_4);
    [|vm_compute; reflexivity].
  apply (journal_put 1 true None s_2 [1; 2]%nat [] 3%nat s_3);
    [|vm_compute; reflexivity].
  apply (journal_put 1 true None s_1 [1%nat] [] 2%nat s_2);
    [|vm_compute; reflexivity].
  apply (journal_put 1 true None s_0 [] [] 1%nat s_1);
    [|vm_compute; reflexivity].
  apply (journal_init 1 true None _ _ slow_clock 0%nat); [by left|reflexivity].
Qed.

Lemma spaced_s_4 : spaced (clock s_4).
Proof.
  replace (clock s_4) with slow_clock by (vm_compute; reflexivity).
  apply slow_clock_spaced.
Qed.

(** A queue of capacity 2, fresh; a queue whose directory is gone; a queue
    whose chunk list names a file that is missing, or that holds nothing. *)
Definition w_fresh2 : world nat :=
  mkWorld (mkFileQueue 2 false 0 (Some []) (PyDeque []) (PyDeque []))
    (Some ∅) fast_clock 0.

Definition w_nodir : world nat :=
  mkWorld (mkFileQueue 1 false 0 (Some []) (PyDeque []) (PyDeque []))
    None fast_clock 0.

Definition w_dangling : world nat :=
  mkWorld (mkFileQueue 1 false 1 (Some ["5000"%string]) (PyDeque []) (PyDeque []))
    (Some ∅) fast_clock 1.

Definition w_hollow : world nat :=
  mkWorld (mkFileQueue 1 false 1 (Some ["5000"%string]) (PyDeque []) (PyDeque []))
    (Some {["5000"%string := PyDeque []]}) fast_clock 1.

Lemma size_counts_calls_witness :
  perform (Put 1%nat) w_fresh = (Return Done, w_one) ∧
  size (self w_one) = size (self w_fresh) + 1.
Proof.
  assert (perform (Put 1%nat) w_fresh = (Return Done, w_one)) as H
    by (vm_compute; reflexivity).
  split; [exact H|].
  exact (size_counts_calls (Put 1%nat) w_fresh w_one Done H).
Defined.

Lemma len_is_puts_minus_gets_witness :
  journal 1 true None s_4 [1; 2; 3]%nat [1%nat] ∧
  len s_4 = (Return 2, s_4) ∧ qsize s_4 = (Return 2, s_4).
Proof.
  split; [exact journal_s_4|].
  exact (len_is_puts_minus_gets 1 true None s_4 [1; 2; 3]%nat [1%nat] journal_s_4).
Defined.

Lemma save_then_load_witness :
  files (self w_fresh) = Some [] ∧
  disk w_fresh = Some ∅ ∧
  ∃ w1 w2,
    save_to_file (PyDeque [1%nat]) true w_fresh = (Return tt, w1) ∧
    files (self w1) = Some [chunk_name (fast_clock 0)] ∧
    get_from_file (chunk_name (fast_clock 0)) w1 = (Return (PyDeque [1%nat]), w2) ∧
    disk w2 = Some (delete (chunk_name (fast_clock 0)) ∅) ∧
    self w2 = self w1.
Proof.
  split; [reflexivity|]. split; [reflexivity|].
  exact (save_then_load (PyDeque [1%nat]) true w_fresh [] ∅ eq_refl eq_refl).
Defined.

Lemma save_to_file_without_directory_witness :
  files (self w_nodir) = Some [] ∧
  disk w_nodir = None ∧
  ∃ w',
    save_to_file (PyDeque [1%nat]) false w_nodir = (Raise IOError, w') ∧
    files (self w') = Some [chunk_name (fast_clock 0)] ∧
    disk w' = None.
Proof.
  split; [reflexivity|]. split; [reflexivity|].
  exact (save_to_file_without_directory (PyDeque [1%nat]) false w_nodir []
           eq_refl eq_refl).
Defined.

Lemma save_to_file_keeps_info_witness :
  save_to_file (PyDeque [3%nat]) true s_2 = (Return tt, snd (save_to_file (PyDeque [3%nat]) true s_2)) ∧
  disk s_2 = Some {["5000"%string := PyDeque [2%nat]]} ∧
  disk (snd (save_to_file (PyDeque [3%nat]) true s_2)) =
    Some (<["5001"%string := PyDeque [3%nat]]> {["5000"%string := PyDeque [2%nat]]}) ∧
  (<["5001"%string := PyDeque [3%nat]]> {["5000"%string := PyDeque [2%nat]]}
     : gmap string (pyobj nat)) !! "info"%string =
  ({["5000"%string := PyDeque [2%nat]]} : gmap string (pyobj nat)) !! "info"%string.
Proof.
  assert (save_to_file (PyDeque [3%nat]) true s_2 =
          (Return tt, snd (save_to_file (PyDeque [3%nat]) true s_2))) as H
    by (vm_compute; reflexivity).
  assert (disk s_2 = Some {["5000"%string := PyDeque [2%nat]]}) as Hd
    by (vm_compute; reflexivity).
  assert (disk (snd (save_to_file (PyDeque [3%nat]) true s_2)) =
          Some (<["5001"%string := PyDeque [3%nat]]>
                  {["5000"%string := PyDeque [2%nat]]})) as Hd'
    by (vm_compute; reflexivity).
  split; [exact H|]. split; [exact Hd|]. split; [exact Hd'|].
  exact (save_to_file_keeps_info _ _ _ _ _ _ _ H Hd Hd').
Defined.

Lemma get_with_missing_chunk_witness :
  truthy (queue_out (self w_dangling)) = false ∧
  files (self w_dangling) = Some ["5000"%string] ∧
  disk w_dangling = Some ∅ ∧
  (∅ : gmap string (pyobj nat)) !! "5000"%string = None ∧
  get true 0 w_dangling =
    (Raise IOError,
     mkWorld (mkFileQueue 1 false 1 (Some []) (PyDeque []) (PyDeque []))
       (Some ∅) fast_clock 1).
Proof.
  repeat (split; [reflexivity|]).
  exact (get_with_missing_chunk true 0%Q w_dangling "5000"%string [] ∅
           eq_refl eq_refl eq_refl eq_refl).
Defined.

Lemma get_with_empty_chunk_witness :
  truthy (queue_out (self w_hollow)) = false ∧
  files (self w_hollow) = Some ["5000"%string] ∧
  disk w_hollow = Some {["5000"%string := PyDeque []]} ∧
  ({["5000"%string := PyDeque []]} : gmap string (pyobj nat)) !! "5000"%string
    = Some (PyDeque []) ∧
  get_nowait w_hollow =
    (Raise IndexError,
     mkWorld (mkFileQueue 1 false 0 (Some []) (PyDeque []) (PyDeque []))
       (Some (delete "5000"%string {["5000"%string := PyDeque []]})) fast_clock 1).
Proof.
  assert (({["5000"%string := PyDeque []]} : gmap string (pyobj nat)) !! "5000"%string
          = Some (PyDeque [])) as H by (vm_compute; reflexivity).
  split; [reflexivity|]. split; [reflexivity|]. split; [reflexivity|].
  split; [exact H|].
  exact (get_with_empty_chunk false 0%Q w_hollow "5000"%string []
           {["5000"%string := PyDeque []]} eq_refl eq_refl eq_refl H).
Defined.

Lemma close_without_save_data_witness :
  save_data (self w_one) = false ∧
  is_Some (disk w_one) ∧
  ∃ w1 w2,
    close w_one = (Return tt, w1) ∧ disk w1 = None ∧
    construct 5 true w1 = (Return tt, w2) ∧
    drained w2 ∧ size (self w2) = 0 ∧ disk w2 = Some ∅.
Proof.
  assert (is_Some (disk w_one)) as H by (exists ∅; reflexivity).
  split; [reflexivity|]. split; [exact H|].
  exact (close_without_save_data w_one 5 true eq_refl H).
Defined.

Lemma del_after_close_witness :
  close s_4 = (Return tt, s_closed) ∧
  chunk (disk s_closed) "5001" = Some [3%nat] ∧
  del s_closed =
    (Return tt, mkWorld (self s_closed) None (clock s_closed) (ticks s_closed)).
Proof.
  assert (close s_4 = (Return tt, s_closed)) as H by (vm_compute; reflexivity).
  split; [exact H|]. split; [vm_compute; reflexivity|].
  exact (del_after_close s_4 s_closed H).
Defined.

Lemma get_blocks_forever_witness :
  drained w_fresh ∧
  Qle_bool (-1) 0 = true ∧
  call 3 (get true (-1)) resume w_fresh = (Blocked WaitForever, w_fresh).
Proof.
  assert (drained w_fresh) as H by (repeat split).
  split; [exact H|]. split; [reflexivity|].
  exact (get_blocks_forever 3 (-1)%Q w_fresh H eq_refl).
Defined.

Lemma put_wakes_blocked_get_witness :
  drained w_fresh2 ∧
  1 < buffer_size (self w_fresh2) ∧
  ∃ w1,
    put 7%nat w_fresh2 = (Return tt, w1) ∧
    resume WaitForever w1 = (Return 7%nat, w_fresh2).
Proof.
  assert (drained w_fresh2) as H by (repeat split).
  assert (1 < buffer_size (self w_fresh2)) as Hbs by (simpl; lia).
  split; [exact H|]. split; [exact Hbs|].
  exact (put_wakes_blocked_get 7%nat WaitForever w_fresh2 H Hbs).
Defined.

Lemma configuration_is_constant_witness :
  perform Close s_4 = (Return Done, s_closed) ∧
  (∀ bs sd, Close ≠ Construct (A := nat) bs sd) ∧
  get_buffer_size s_closed = (Return 1, s_closed) ∧
  is_save_data s_closed = (Return true, s_closed).
Proof.
  assert (perform Close s_4 = (Return Done, s_closed)) as H
    by (vm_compute; reflexivity).
  assert (∀ bs sd, Close ≠ Construct (A := nat) bs sd) as Ho
    by (intros bs sd; discriminate).
  split; [exact H|]. split; [exact Ho|].
  exact (configuration_is_constant Close s_4 s_closed (Return Done) H Ho).
Defined.

(** A [get] with a timeout of a quarter of a millisecond on the fresh
    queue, the clock read every tenth of a millisecond: the two readings
    after the first are before the deadline, the third is not. *)
Lemma timed_get_on_empty_queue_witness :
  drained w_fresh ∧
  (0 < 1 # 4000)%Q ∧
  (∀ i, (i < 2)%nat →
     (clock w_fresh (S (ticks w_fresh) + i)%nat
      < clock w_fresh (ticks w_fresh) + (1 # 4000))%Q) ∧
  (clock w_fresh (ticks w_fresh) + (1 # 4000)
   <= clock w_fresh (S (ticks w_fresh) + 2)%nat)%Q ∧
  call 1 (get true (1 # 4000)) resume w_fresh =
    (Blocked (WaitUntil (fast_clock 0 + (1 # 4000))%Q),
     mkWorld (self w_fresh) (disk w_fresh) fast_clock 3) ∧
  call 2 (get true (1 # 4000)) resume w_fresh =
    (Raise Empty, mkWorld (self w_fresh) (disk w_fresh) fast_clock 4).
Proof.
  assert (drained w_fresh) as H by (repeat split).
  assert (0 < 1 # 4000)%Q as Ht by reflexivity.
  assert (∀ i, (i < 2)%nat →
     (clock w_fresh (S (ticks w_fresh) + i)%nat
      < clock w_fresh (ticks w_fresh) + (1 # 4000))%Q) as Hbefore
    by (intros [|[|i]] Hi; [reflexivity|reflexivity|lia]).
  assert (clock w_fresh (ticks w_fresh) + (1 # 4000)
          <= clock w_fresh (S (ticks w_fresh) + 2)%nat)%Q as Hat
    by (intros Hgt; discriminate Hgt).
  split; [exact H|]. split; [exact Ht|]. split; [exact Hbefore|].
  split; [exact Hat|]. split.
  - exact (timed_get_on_empty_queue 1 2 (1 # 4000) w_fresh H Ht Hbefore Hat).
  - exact (timed_get_on_empty_queue 2 2 (1 # 4000) w_fresh H Ht Hbefore Hat).
Defined.

Lemma fifo_with_spaced_clock_witness :
  journal 1 true None s_4 [1; 2; 3]%nat [1%nat] ∧
  spaced (clock s_4) ∧
  [1%nat] `prefix_of` [1; 2; 3]%nat ∧
  (∃ rest, contents s_4 = Some rest ∧ [1; 2; 3]%nat = [1%nat] ++ rest) ∧
  accounted s_4 = Some (size (self s_4)) ∧
  (∀ x rest block timeout, [1; 2; 3]%nat = [1%nat] ++ x :: rest →
     ∃ w', get block timeout s_4 = (Return x, w')).
Proof.
  split; [exact journal_s_4|]. split; [exact spaced_s_4|].
  exact (fifo_with_spaced_clock 1 true None s_4 [1; 2; 3]%nat [1%nat]
           journal_s_4 spaced_s_4).
Defined.

Lemma round_trip_with_spaced_clock_witness :
  journal 1 true None s_4 [1; 2; 3]%nat [1%nat] ∧
  spaced (clock s_4) ∧
  [1; 2; 3]%nat = [1%nat] ++ [2; 3]%nat ∧
  ∃ w1 w2 w3,
    close s_4 = (Return tt, w1) ∧
    construct 5 false w1 = (Return tt, w2) ∧
    get_all 2 w2 = (Return [2; 3]%nat, w3).
Proof.
  split; [exact journal_s_4|]. split; [exact spaced_s_4|].
  split; [reflexivity|].
  exact (round_trip_with_spaced_clock 1 None s_4 [1; 2; 3]%nat [1%nat]
           [2; 3]%nat 5 false journal_s_4 spaced_s_4 eq_refl).
Defined.

Lemma resident_items_bounded_witness :
  1 ≤ 1 ∧
  journal 1 true None s_4 [1; 2; 3]%nat [1%nat] ∧
  ∃ i o, queue_in (self s_4) = PyDeque i ∧ queue_out (self s_4) = PyDeque o ∧
         Z.of_nat (length i) < 1 ∧ Z.of_nat (length o) ≤ 1.
Proof.
  split; [lia|]. split; [exact journal_s_4|].
  exact (resident_items_bounded 1 true None s_4 [1; 2; 3]%nat [1%nat]
           ltac:(lia) journal_s_4).
Defined.

Lemma close_of_empty_queue_witness :
  drained s_0 ∧
  is_Some (disk s_0) ∧
  ∃ w1, close s_0 = (Return tt, w1) ∧ disk w1 = None ∧
        size (self w1) = size (self s_0).
Proof.
  assert (drained s_0) as H by (repeat split).
  assert (is_Some (disk s_0)) as Hd by (exists ∅; reflexivity).
  split; [exact H|]. split; [exact Hd|].
  exact (close_of_empty_queue s_0 H Hd).
Defined.

(** A queue with [save_data] that holds one item in incoming, its
    directory gone: [close] lists a chunk name, fails to write the chunk,
    and leaves the item where it was. *)
Definition w_gone : world nat :=
  mkWorld (mkFileQueue 2 true 1 (Some []) (PyDeque [1%nat]) (PyDeque []))
    None fast_clock 0.

Lemma failed_close_leaves_queue_open_witness :
  close w_gone = (Raise IOError, snd (close w_gone)) ∧
  queue_in (self (snd (close w_gone))) = PyDeque [1%nat] ∧
  queue_out (self (snd (close w_gone))) = PyDeque [] ∧
  (files (self w_gone) ≠ None → files (self (snd (close w_gone))) ≠ None) ∧
  size (self (snd (close w_gone))) = 1.
Proof.
  assert (close w_gone = (Raise IOError, snd (close w_gone))) as H
    by (vm_compute; reflexivity).
  split; [exact H|].
  exact (failed_close_leaves_queue_open w_gone (snd (close w_gone)) IOError H).
Defined.

Lemma rebinding_removes_saved_queue_witness :
  close s_4 = (Return tt, s_closed) ∧
  is_Some (disk s_closed) ∧
  ∃ w2 f fl,
    rebind 5 false s_closed = (Return tt, w2) ∧
    size (self w2) = size (self s_4) ∧
    files (self w2) = Some (f :: fl) ∧
    disk w2 = None ∧
    ∀ block timeout,
      get block timeout w2 =
        (Raise IOError,
         mkWorld (with_files (Some fl) (self w2)) None (clock w2) (ticks w2)).
Proof.
  assert (close s_4 = (Return tt, s_closed)) as H by (vm_compute; reflexivity).
  assert (is_Some (disk s_closed)) as Hd
    by (exists (default ∅ (disk s_closed)); vm_compute; reflexivity).
  split; [exact H|]. split; [exact Hd|].
  exact (rebinding_removes_saved_queue s_4 s_closed 5 false H Hd).
Defined.
